(** * degiro-steuer-scrape: the parsing and aggregation pipeline

    A shallow embedding of [degiro-steuer-scrape.py] and the properties of
    its report that the specification states.

    Embedded: [extract_text_from_pdf], [extract_dividend_table],
    [extract_realized_profits_and_fees], [extract_general_data],
    [extract_transaction_fee] and [main], with the calls of [re], [str],
    [float] and pandas they make.  A PDF is what pdfplumber gives for it,
    the texts of its pages or an exception; [main] is taken to the frame
    it gives to [save_to_excel], and writing the file is outside.

    Modelling conventions.
    - A Python [str] is a list of Unicode code points ([str]); the
      character classes [\s] and [\d] of [re] and the whitespace of
      [str.strip] are the tables of Unicode 14 (CPython 3.11).
    - [re] patterns are kept as the pattern strings of the source and
      compiled by [re_compile] to a small abstract syntax, matched by a
      backtracking matcher with the priorities of [re] (greedy and lazy
      repetition, leftmost first match).
    - A Python [float] is an extended exact rational ([pyfloat]): a finite
      value is the rational it denotes, with the special values [inf],
      [-inf] and [nan].  The rounding, the overflow and the signed zero of
      binary64 are not modelled there: arithmetic on finite values is
      exact.  Where the rounding decides a property, the dividend table is
      taken with binary64 amounts ([Binary64], on [SpecFloat]).
    - Exceptions are values: a function that can raise returns an
      [outcome]; [main] returns what it hands to the spreadsheet writer. *)

From Stdlib Require Import String Ascii List Bool Arith NArith ZArith QArith Qabs Lia Lqa.
From Stdlib Require Import DecimalPos DecimalN Permutation.
From Stdlib Require SpecFloat.
Import ListNotations.

Set Implicit Arguments.

(** ** Strings as lists of code points *)

Definition char := N.
Definition str := list char.

Open Scope N_scope.

Definition bytes_of_string (s : string) : list N :=
  map N_of_ascii (list_ascii_of_string s).

(** Decoding of the UTF-8 bytes of a string literal of this file. *)
Fixpoint utf8_decode (bs : list N) : str :=
  match bs with
  | [] => []
  | b0 :: r0 =>
    if b0 <? 128 then b0 :: utf8_decode r0
    else match r0 with
    | [] => []
    | b1 :: r1 =>
      if b0 <? 224 then ((b0 - 192) * 64 + (b1 - 128)) :: utf8_decode r1
      else match r1 with
      | [] => []
      | b2 :: r2 =>
        if b0 <? 240
        then ((b0 - 224) * 4096 + (b1 - 128) * 64 + (b2 - 128)) :: utf8_decode r2
        else match r2 with
        | [] => []
        | b3 :: r3 =>
          ((b0 - 240) * 262144 + (b1 - 128) * 4096 + (b2 - 128) * 64 + (b3 - 128))
            :: utf8_decode r3
        end
      end
    end
  end.

Definition utf8 (s : string) : str := utf8_decode (bytes_of_string s).

Fixpoint text_eqb (a b : str) : bool :=
  match a, b with
  | [], [] => true
  | x :: a', y :: b' => (x =? y) && text_eqb a' b'
  | _, _ => false
  end.

(** [str.isspace] and [\s]: the whitespace code points. *)
Definition whitespace_points : list N :=
  [9; 10; 11; 12; 13; 28; 29; 30; 31; 32; 133; 160; 5760;
   8192; 8193; 8194; 8195; 8196; 8197; 8198; 8199; 8200; 8201; 8202;
   8232; 8233; 8239; 8287; 12288].

Definition isspace (c : char) : bool := existsb (N.eqb c) whitespace_points.

(** The code points of the digit zero of every decimal script (category Nd);
    the nine other digits of a script follow its zero. *)
Definition decimal_zeros : list N :=
  [48; 1632; 1776; 1984; 2406; 2534; 2662; 2790; 2918; 3046; 3174; 3302;
   3430; 3558; 3664; 3792; 3872; 4160; 4240; 6112; 6160; 6470; 6608; 6784;
   6800; 6992; 7088; 7232; 7248; 42528; 43216; 43264; 43472; 43504; 43600;
   44016; 65296; 66720; 68912; 69734; 69872; 69942; 70096; 70384; 70736;
   70864; 71248; 71360; 71472; 71904; 72016; 72784; 73040; 73120; 92768;
   92864; 93008; 120782; 120792; 120802; 120812; 120822; 123200; 123632;
   125264; 130032].

Definition decimal_value (c : char) : option N :=
  match find (fun z => (z <=? c) && (c <? z + 10)) decimal_zeros with
  | Some z => Some (c - z)
  | None => None
  end.

(** [\d] *)
Definition isdecimal (c : char) : bool :=
  match decimal_value c with Some _ => true | None => false end.

Definition in_range (lo hi c : char) : bool := (lo <=? c) && (c <=? hi).

Definition NL : char := 10.

(** [str.lstrip], [str.rstrip], [str.strip] *)
Fixpoint lstrip (s : str) : str :=
  match s with
  | c :: s' => if isspace c then lstrip s' else s
  | [] => []
  end.

Fixpoint rstrip (s : str) : str :=
  match s with
  | [] => []
  | c :: s' =>
    match rstrip s' with
    | [] => if isspace c then [] else [c]
    | r => c :: r
    end
  end.

Definition strip (s : str) : str := rstrip (lstrip s).

(** [s.split("\n")]: never empty, the pieces between the line feeds. *)
Fixpoint split_lines (s : str) : list str :=
  match s with
  | [] => [[]]
  | c :: s' =>
    if c =? NL then [] :: split_lines s'
    else match split_lines s' with
         | l :: ls => (c :: l) :: ls
         | [] => [[c]]
         end
  end.

(** [s.replace(',', '.')] *)
Definition replace_comma (s : str) : str :=
  map (fun c => if c =? 44 then 46 else c) s.

(** ** The fragment of [re] the program uses *)

Inductive quant := Once | ZeroOrMore | OneOrMore | LazyZeroOrMore.

Inductive node :=
| Cls (p : char -> bool) (q : quant)   (* a character set and its repetition *)
| GroupOpen                            (* [(] *)
| GroupClose.                          (* [)] *)

Definition regex := list node.

Module Pattern.

(** The characters of the pattern syntax. *)
Definition backslash : char := 92.
Definition lparen : char := 40.
Definition rparen : char := 41.
Definition lbracket : char := 91.
Definition rbracket : char := 93.
Definition dot : char := 46.
Definition hyphen : char := 45.
Definition caret : char := 94.

Definition alphanumeric (c : char) : bool :=
  in_range 48 57 c || in_range 65 90 c || in_range 97 122 c.

(** An escape: [\s], [\d] and [\n] are the whitespace, the decimal digits
    and the line feed; an escaped punctuation character stands for itself;
    the other escapes are outside the fragment. *)
Definition escape (c : char) : option (char -> bool) :=
  if c =? 115 then Some isspace
  else if c =? 100 then Some isdecimal
  else if c =? 110 then Some (N.eqb NL)
  else if alphanumeric c then None
  else Some (N.eqb c).

Definition union (p q : char -> bool) : char -> bool := fun c => p c || q c.

(** The inside of [[...]], up to the closing bracket: escapes, ranges
    [a-z] and single characters. *)
Fixpoint parse_set (p : str) (acc : char -> bool) : option ((char -> bool) * str) :=
  match p with
  | [] => None
  | c :: r =>
    if c =? rbracket then Some (acc, r)
    else if c =? backslash then
      match r with
      | e :: r' =>
        match escape e with
        | Some set => parse_set r' (union acc set)
        | None => None
        end
      | [] => None
      end
    else
      match r with
      | d :: h :: r' =>
        if (d =? hyphen) && negb (h =? rbracket) && negb (h =? backslash)
        then parse_set r' (union acc (in_range c h))
        else parse_set r (union acc (N.eqb c))
      | _ => parse_set r (union acc (N.eqb c))
      end
  end.

(** The repetition after an atom: [*?], [*], [+] or none
    ([42], [43] and [63] are the star, the plus and the question mark). *)
Definition parse_quant (p : str) : quant * str :=
  match p with
  | 42 :: 63 :: r => (LazyZeroOrMore, r)
  | 42 :: r => (ZeroOrMore, r)
  | 43 :: r => (OneOrMore, r)
  | _ => (Once, p)
  end.

(** The characters [* + ? { } | ^ $ ]] where no atom can start. *)
Definition metachar (c : char) : bool :=
  existsb (N.eqb c) [42; 43; 63; 123; 125; 124; 94; 36; 93].

Fixpoint parse (fuel : nat) (dotall : bool) (p : str) : option regex :=
  match fuel with
  | O => None
  | S fuel' =>
    match p with
    | [] => Some []
    | c :: r =>
      let atom (set : char -> bool) (r : str) :=
        let (q, r') := parse_quant r in
        option_map (cons (Cls set q)) (parse fuel' dotall r') in
      if c =? lparen then option_map (cons GroupOpen) (parse fuel' dotall r)
      else if c =? rparen then
        match r with
        | q :: _ => if metachar q then None
                    else option_map (cons GroupClose) (parse fuel' dotall r)
        | [] => Some [GroupClose]
        end
      else if c =? dot then atom (fun x => dotall || negb (x =? NL)) r
      else if c =? lbracket then
        match r with
        | n :: _ =>
          if n =? caret then None
          else match parse_set r (fun _ => false) with
               | Some (set, r') => atom set r'
               | None => None
               end
        | [] => None
        end
      else if c =? backslash then
        match r with
        | e :: r' =>
          match escape e with
          | Some set => atom set r'
          | None => None
          end
        | [] => None
        end
      else if metachar c then None
      else atom (N.eqb c) r
    end
  end.

End Pattern.

Inductive flag := NoFlag | DOTALL.

(** [re.compile(pattern, flags)]; a pattern outside the fragment compiles
    to [None]. *)
Definition re_compile (pattern : string) (f : flag) : option regex :=
  let p := utf8 pattern in
  Pattern.parse (S (length p)) (match f with DOTALL => true | NoFlag => false end) p.

(** The state of a match: the input at the last [(] and the groups closed
    so far, in order. *)
Record mstate := { opened : str; groups : list str }.

Definition open_group (st : mstate) (s : str) : mstate :=
  {| opened := s; groups := groups st |}.

Definition close_group (st : mstate) (s : str) : mstate :=
  {| opened := opened st;
     groups := groups st ++ [firstn (length (opened st) - length s) (opened st)] |}.

Section Repetition.
Variable A : Type.
Variable p : char -> bool.
Variable k : str -> option A.

(** Greedy: as many characters as possible, giving back one at a time. *)
Fixpoint greedy (s : str) : option A :=
  match s with
  | c :: s' =>
    if p c then match greedy s' with Some r => Some r | None => k s end
    else k s
  | [] => k s
  end.

(** Lazy: as few characters as possible, taking one more at a time. *)
Fixpoint lazy (s : str) : option A :=
  match k s with
  | Some r => Some r
  | None =>
    match s with
    | c :: s' => if p c then lazy s' else None
    | [] => None
    end
  end.
End Repetition.

(** A match of [r] at the start of [s]: the groups and the input left. *)
Fixpoint match_here (r : regex) (st : mstate) (s : str) : option (list str * str) :=
  match r with
  | [] => Some (groups st, s)
  | GroupOpen :: r' => match_here r' (open_group st s) s
  | GroupClose :: r' => match_here r' (close_group st s) s
  | Cls p Once :: r' =>
    match s with
    | c :: s' => if p c then match_here r' st s' else None
    | [] => None
    end
  | Cls p ZeroOrMore :: r' => greedy p (match_here r' st) s
  | Cls p OneOrMore :: r' =>
    match s with
    | c :: s' => if p c then greedy p (match_here r' st) s' else None
    | [] => None
    end
  | Cls p LazyZeroOrMore :: r' => lazy p (match_here r' st) s
  end.

Definition no_groups : mstate := {| opened := []; groups := [] |}.

(** A match object: the text before the match, the groups, the text after. *)
Record re_match := { before : str; group : list str; after : str }.

(** [pattern.search(s)]: the first position with a match. *)
Fixpoint search_from (r : regex) (skipped : str) (s : str) : option re_match :=
  match match_here r no_groups s with
  | Some (g, rest) => Some {| before := rev skipped; group := g; after := rest |}
  | None =>
    match s with
    | c :: s' => search_from r (c :: skipped) s'
    | [] => None
    end
  end.

Definition re_search (pattern : string) (f : flag) (s : str) : option re_match :=
  match re_compile pattern f with
  | Some r => search_from r [] s
  | None => None
  end.

(** [re.findall]: the groups of the successive matches, each search
    starting where the match before it ended. *)
Fixpoint findall_from (fuel : nat) (r : regex) (s : str) : list (list str) :=
  match fuel with
  | O => []
  | S fuel' =>
    match search_from r [] s with
    | Some m => group m :: findall_from fuel' r (after m)
    | None => []
    end
  end.

Definition re_findall (pattern : string) (s : str) : list (list str) :=
  match re_compile pattern NoFlag with
  | Some r => findall_from (S (length s)) r s
  | None => []
  end.

(** [re.split]: the pieces between the successive matches. *)
Fixpoint split_from (fuel : nat) (r : regex) (s : str) : list str :=
  match fuel with
  | O => [s]
  | S fuel' =>
    match search_from r [] s with
    | Some m => before m :: split_from fuel' r (after m)
    | None => [s]
    end
  end.

Definition re_split (pattern : string) (s : str) : list str :=
  match re_compile pattern NoFlag with
  | Some r => split_from (S (length s)) r s
  | None => [s]
  end.

(** ["\n".join(lines)], to write a document as its lines. *)
Fixpoint join_lines (ls : list str) : str :=
  match ls with
  | [] => []
  | [l] => l
  | l :: ls' => l ++ NL :: join_lines ls'
  end.

Definition document (ls : list string) : str := join_lines (map utf8 ls).

(** ** Floats *)

Inductive pyfloat :=
| Fin (q : Q)   (* a finite value, kept in lowest terms *)
| PInf          (* [inf] *)
| NInf          (* [-inf] *)
| NaN.          (* [nan], also the missing value of a column *)

Definition fin (n d : Z) : pyfloat := Fin (Qred (n # Z.to_pos d)).

Definition zero : pyfloat := Fin 0.

Definition isnan (x : pyfloat) : bool :=
  match x with NaN => true | _ => false end.

Definition isfinite (x : pyfloat) : bool :=
  match x with Fin _ => true | _ => false end.

(** The sign of a value: [-1], [0] or [1]; a NaN has none. *)
Definition fsign (x : pyfloat) : option Z :=
  match x with
  | Fin q => Some (Z.sgn (Qnum q))
  | PInf => Some 1%Z
  | NInf => Some (-1)%Z
  | NaN => None
  end.

Definition fneg (x : pyfloat) : pyfloat :=
  match x with
  | Fin q => Fin (Qred (- q))
  | PInf => NInf
  | NInf => PInf
  | NaN => NaN
  end.

Definition fadd (x y : pyfloat) : pyfloat :=
  match x, y with
  | NaN, _ | _, NaN => NaN
  | PInf, NInf | NInf, PInf => NaN
  | PInf, _ | _, PInf => PInf
  | NInf, _ | _, NInf => NInf
  | Fin a, Fin b => Fin (Qred (a + b))
  end.

Definition fsub (x y : pyfloat) : pyfloat := fadd x (fneg y).

Definition inf_of_sign (s : Z) : pyfloat :=
  match s with
  | Zpos _ => PInf
  | Zneg _ => NInf
  | Z0 => NaN
  end.

Definition fmul (x y : pyfloat) : pyfloat :=
  match x, y with
  | Fin a, Fin b => Fin (Qred (a * b))
  | _, _ =>
    match fsign x, fsign y with
    | Some s, Some t => inf_of_sign (s * t)
    | _, _ => NaN
    end
  end.

(** Division as numpy does it: a finite value over zero is an infinity,
    zero over zero a NaN, and nothing is raised. *)
Definition fdiv (x y : pyfloat) : pyfloat :=
  match x, y with
  | NaN, _ | _, NaN => NaN
  | Fin a, Fin b =>
    if (Qnum b =? 0)%Z then inf_of_sign (Z.sgn (Qnum a))
    else Fin (Qred (a / b))
  | Fin _, _ => zero
  | _, Fin b => if (0 <=? Qnum b)%Z then x else fneg x
  | _, _ => NaN
  end.

(** [x < y]; false when either is a NaN. *)
Definition flt (x y : pyfloat) : bool :=
  match x, y with
  | NaN, _ | _, NaN => false
  | Fin a, Fin b => negb (Qle_bool b a)
  | _, NInf => false
  | NInf, _ => true
  | PInf, _ => false
  | _, PInf => true
  end.

Definition fgt (x y : pyfloat) : bool := flt y x.

(** [abs(x)] *)
Definition fabs (x : pyfloat) : pyfloat :=
  match x with
  | Fin q => Fin (Qred (Qabs q))
  | PInf | NInf => PInf
  | NaN => NaN
  end.

(** [Series.sum()]: the missing values are skipped and the sum of nothing
    is zero. *)
Definition fsum (l : list pyfloat) : pyfloat :=
  fold_left fadd (filter (fun x => negb (isnan x)) l) zero.

(** *** [float(s)] *)

Definition isdigit (c : char) : bool := in_range 48 57 c.

(** What [float] does to a character before it parses: a non-ASCII space
    is a space, a non-ASCII decimal digit its ASCII digit, anything else
    outside ASCII a [?]. *)
Definition to_ascii (c : char) : char :=
  if c <? 128 then c
  else if isspace c then 32
  else match decimal_value c with Some d => 48 + d | None => 63 end.

Definition ascii_space (c : char) : bool := in_range 9 13 c || (c =? 32).

Fixpoint drop_spaces (s : str) : str :=
  match s with
  | c :: s' => if ascii_space c then drop_spaces s' else s
  | [] => []
  end.

(** An underscore is accepted between two digits only; it is dropped. *)
Fixpoint drop_underscores (prev : char) (s : str) : option str :=
  match s with
  | [] => if prev =? 95 then None else Some []
  | c :: s' =>
    if c =? 95 then
      if isdigit prev then drop_underscores c s' else None
    else if (prev =? 95) && negb (isdigit c) then None
    else option_map (cons c) (drop_underscores c s')
  end.

Fixpoint span_digits (s : str) : str * str :=
  match s with
  | c :: s' =>
    if isdigit c then let (d, r) := span_digits s' in (c :: d, r) else ([], s)
  | [] => ([], [])
  end.

Definition digits_value (ds : str) : Z :=
  fold_left (fun acc d => (acc * 10 + Z.of_N (d - 48))%Z) ds 0%Z.

Definition lower (c : char) : char := if in_range 65 90 c then c + 32 else c.

Definition take_sign (s : str) : bool * str :=
  match s with
  | 43 :: r => (false, r)
  | 45 :: r => (true, r)
  | _ => (false, s)
  end.

(** The exponent part: [e] or [E], a sign, digits, and the end of the text. *)
Definition parse_exponent (s : str) : option Z :=
  match s with
  | [] => Some 0%Z
  | c :: r =>
    if lower c =? 101 then
      let (neg, r1) := take_sign r in
      match span_digits r1 with
      | ((_ :: _) as ds, []) =>
        Some (if neg then (- digits_value ds)%Z else digits_value ds)
      | _ => None
      end
    else None
  end.

Definition scale10 (m e : Z) : Q :=
  if (0 <=? e)%Z then inject_Z (m * 10 ^ e)
  else Qred (m # Z.to_pos (10 ^ (- e))).

(** The digits, the point and the exponent of a finite literal. *)
Definition parse_decimal (s : str) : option Q :=
  let (ip, r) := span_digits s in
  let (fp, r1) :=
    match r with
    | 46 :: r' => span_digits r'
    | _ => ([], r)
    end in
  match ip ++ fp with
  | [] => None
  | ds =>
    match parse_exponent r1 with
    | Some e => Some (scale10 (digits_value ds) (e - Z.of_nat (length fp)))
    | None => None
    end
  end.

(** [float(s)]: [None] stands for the [ValueError]. *)
Definition float (s : str) : option pyfloat :=
  let a := rev (drop_spaces (rev (drop_spaces (map to_ascii s)))) in
  match drop_underscores 0 a with
  | None => None
  | Some b =>
    let (neg, r) := take_sign b in
    let w := map lower r in
    if text_eqb w (utf8 "inf") || text_eqb w (utf8 "infinity")
    then Some (if neg then NInf else PInf)
    else if text_eqb w (utf8 "nan") then Some NaN
    else match parse_decimal r with
         | Some q => Some (if neg then fneg (Fin q) else Fin q)
         | None => None
         end
  end.

(** *** [f"{x:.2f}"] *)

Fixpoint uint_text (u : Decimal.uint) : str :=
  match u with
  | Decimal.Nil => []
  | Decimal.D0 u' => 48 :: uint_text u'
  | Decimal.D1 u' => 49 :: uint_text u'
  | Decimal.D2 u' => 50 :: uint_text u'
  | Decimal.D3 u' => 51 :: uint_text u'
  | Decimal.D4 u' => 52 :: uint_text u'
  | Decimal.D5 u' => 53 :: uint_text u'
  | Decimal.D6 u' => 54 :: uint_text u'
  | Decimal.D7 u' => 55 :: uint_text u'
  | Decimal.D8 u' => 56 :: uint_text u'
  | Decimal.D9 u' => 57 :: uint_text u'
  end.

(** The decimal digits of a natural number, at least one. *)
Definition digits_of (n : N) : str := uint_text (N.to_uint n).

(** The hundredths of [|q|], to the nearest, a tie to the even one. *)
Definition round_hundredths (q : Q) : N :=
  let n := (Z.abs (Qnum q) * 100)%Z in
  let d := Zpos (Qden q) in
  let fl := (n / d)%Z in
  let r := (n mod d)%Z in
  Z.to_N (match (2 * r ?= d)%Z with
          | Lt => fl
          | Gt => fl + 1
          | Eq => if Z.even fl then fl else fl + 1
          end)%Z.

Definition format_2f (x : pyfloat) : str :=
  match x with
  | Fin q =>
    let h := round_hundredths q in
    (if (Qnum q <? 0)%Z then [45] else [])
      ++ digits_of (h / 100) ++ [46; 48 + (h / 10) mod 10; 48 + h mod 10]
  | PInf => utf8 "inf"
  | NInf => utf8 "-inf"
  | NaN => utf8 "nan"
  end.

(** ** Exceptions *)

Inductive exn := ValueError | TypeError | KeyError.

Inductive outcome (A : Type) :=
| Return (a : A)
| Raise (e : exn).

Arguments Return {A} a.
Arguments Raise {A} e.

Definition bind {A B} (m : outcome A) (f : A -> outcome B) : outcome B :=
  match m with
  | Return a => f a
  | Raise e => Raise e
  end.

Notation "x <- m ;; k" := (bind m (fun x => k))
  (at level 61, m at next level, right associativity).

(** The first exception of a sequence of computations, or all the results. *)
Fixpoint for_each {A B} (f : A -> outcome B) (l : list A) : outcome (list B) :=
  match l with
  | [] => Return []
  | a :: l' => b <- f a ;; bs <- for_each f l' ;; Return (b :: bs)
  end.

(** [m.group(i)], for [i >= 1] *)
Definition group_at (m : re_match) (i : nat) : str := nth (i - 1) (group m) [].

Definition DE : str := utf8 "DE".

(** [column.str.replace(',', '.').astype(float)] on one cell: a missing
    cell becomes a NaN, a text that is no float literal raises. *)
Definition astype_float (cell : option str) : outcome pyfloat :=
  match cell with
  | None => Return NaN
  | Some s =>
    match float (replace_comma s) with
    | Some x => Return x
    | None => Raise ValueError
    end
  end.

(** ** The dividend table *)

Module Dividend.

Record row := {
  Land : option str;
  Bruttodividende : pyfloat;
  Quellensteuer : pyfloat;
  Nettodividende : pyfloat;
  Steuersatz : pyfloat
}.

(** [df["Land"] == "DE"]; a missing cell is not equal to it. *)
Definition is_DE (r : row) : bool :=
  match Land r with
  | Some l => text_eqb l DE
  | None => false
  end.

End Dividend.

Definition widest (data : list (list str)) : nat :=
  fold_right (fun r m => Nat.max (length r) m) 0%nat data.

Definition pad (n : nat) (r : list str) : list (option str) :=
  map Some r ++ repeat None (n - length r).

(** [pd.DataFrame(data, columns=...)] on a list of lists: the frame is as
    wide as the longest list, the shorter ones are filled with missing
    cells, and a width other than the number of column names raises a
    [ValueError]; no list at all gives the frame without rows. *)
Definition DataFrame (data : list (list str)) (columns : nat)
  : outcome (list (list (option str))) :=
  match data with
  | [] => Return []
  | _ => if (widest data =? columns)%nat then Return (map (pad columns) data)
         else Raise ValueError
  end.

(** The three numeric columns converted and the rate column added.  The
    source converts column by column; every failure is the same
    [ValueError], so the order of the cells does not show. *)
Definition dividend_row (cells : list (option str)) : outcome Dividend.row :=
  match cells with
  | [land; brutto; quellen; netto] =>
    b <- astype_float brutto ;;
    q <- astype_float quellen ;;
    n <- astype_float netto ;;
    Return {| Dividend.Land := land;
              Dividend.Bruttodividende := b;
              Dividend.Quellensteuer := q;
              Dividend.Nettodividende := n;
              Dividend.Steuersatz := fdiv q b |}
  | _ => Raise ValueError
  end.

Definition dividend_sum (df : list Dividend.row) : pyfloat :=
  fsum (map Dividend.Bruttodividende df).

Definition dividend_sum_de (df : list Dividend.row) : pyfloat :=
  fsum (map Dividend.Bruttodividende (filter Dividend.is_DE df)).

Definition dividend_sum_ausl (df : list Dividend.row) : pyfloat :=
  fsum (map Dividend.Bruttodividende
            (filter (fun r => negb (Dividend.is_DE r)) df)).

(** What [extract_dividend_table] returns: the 4-tuple, or the empty
    [pd.DataFrame()] of its two other exits. *)
Inductive dividend_result :=
| DividendTable (dividend_df : list Dividend.row)
                (dividend_sum dividend_sum_de dividend_sum_ausl : pyfloat)
| EmptyDataFrame.

Definition dividend_pattern : string :=
  "Land Bruttodividende Quellensteuer Nettodividende\n(.*?)\nKuponübersicht".

(** The text between the two anchors of the dividend table. *)
Definition dividend_section (text : str) : option str :=
  option_map (fun m => group_at m 1) (re_search dividend_pattern DOTALL text).

(** [divi_lines[:-1]] *)
Definition record_lines (section : str) : list str :=
  removelast (split_lines (strip section)).

Definition divi_data (section : str) : list (list str) :=
  map (re_split "\s+") (record_lines section).

Definition extract_dividend_table (text : str) : dividend_result :=
  match dividend_section text with
  | None => EmptyDataFrame
  | Some section =>
    match frame <- DataFrame (divi_data section) 4 ;; for_each dividend_row frame with
    | Return df =>
      DividendTable df (dividend_sum df) (dividend_sum_de df) (dividend_sum_ausl df)
    | Raise _ => EmptyDataFrame
    end
  end.

(** ** The realized gains and losses *)

Module Profit.

Record row := {
  Produkt : str;
  ISIN : str;
  Realisierte_Gewinne_Verluste : pyfloat;
  Transaktionsgebuehr : pyfloat;
  Land : str
}.

(** The column [G/V]. *)
Definition GV (r : row) : pyfloat :=
  fsub (Realisierte_Gewinne_Verluste r) (Transaktionsgebuehr r).

Definition is_DE (r : row) : bool := text_eqb (Land r) DE.

Definition positive (r : row) : bool := fgt (GV r) zero.
Definition negative (r : row) : bool := flt (GV r) zero.

End Profit.

(** [df[mask]['G/V'].sum()] *)
Definition sum_GV (mask : Profit.row -> bool) (df : list Profit.row) : pyfloat :=
  fsum (map Profit.GV (filter mask df)).

Definition positive_entries := sum_GV Profit.positive.
Definition negative_entries := sum_GV Profit.negative.
Definition positive_entries_de :=
  sum_GV (fun r => Profit.positive r && Profit.is_DE r).
Definition negative_entries_de :=
  sum_GV (fun r => Profit.negative r && Profit.is_DE r).
Definition positive_entries_ausl :=
  sum_GV (fun r => Profit.positive r && negb (Profit.is_DE r)).
Definition negative_entries_ausl :=
  sum_GV (fun r => Profit.negative r && negb (Profit.is_DE r)).

Definition section_pattern : string :=
  "(Realisierte Gewinne/Verluste je Produkt)(.*?)(Alle Dividenden und Kupons)".

Definition table_pattern : string :=
  "([A-Za-z0-9\s&\.\-]+)\s+([A-Z0-9]+)\s+([\-0-9,\.]+)\s+([\-0-9,\.]+)".

(** The text between the two anchors of the realized gains and losses. *)
Definition realized_section (raw_text : str) : option str :=
  option_map (fun m => group_at m 2) (re_search section_pattern DOTALL raw_text).

(** The tuples [re.findall] yields for the rows of the section. *)
Definition rows (section_text : str) : list (list str) :=
  re_findall table_pattern section_text.

(** One matched row as a record of the frame, its two numbers converted. *)
Definition profit_row (row : list str) : outcome Profit.row :=
  let isin := strip (nth 1 row []) in
  g <- astype_float (Some (strip (nth 2 row []))) ;;
  t <- astype_float (Some (strip (nth 3 row []))) ;;
  Return {| Profit.Produkt := strip (nth 0 row []);
            Profit.ISIN := isin;
            Profit.Realisierte_Gewinne_Verluste := g;
            Profit.Transaktionsgebuehr := t;
            Profit.Land := firstn 2 isin |}.

(** The 7-tuple [extract_realized_profits_and_fees] returns. *)
Record profits := {
  profits_df : list Profit.row;
  p_positive_entries : pyfloat;
  p_negative_entries : pyfloat;
  p_positive_entries_de : pyfloat;
  p_negative_entries_de : pyfloat;
  p_positive_entries_ausl : pyfloat;
  p_negative_entries_ausl : pyfloat
}.

Definition profits_of (df : list Profit.row) : profits :=
  {| profits_df := df;
     p_positive_entries := positive_entries df;
     p_negative_entries := negative_entries df;
     p_positive_entries_de := positive_entries_de df;
     p_negative_entries_de := negative_entries_de df;
     p_positive_entries_ausl := positive_entries_ausl df;
     p_negative_entries_ausl := negative_entries_ausl df |}.

(** [Return None] is the [return None] of the source; a frame built from
    no row has no column, and the first column access raises [KeyError]. *)
Definition extract_realized_profits_and_fees (raw_text : str)
  : outcome (option profits) :=
  match realized_section raw_text with
  | None => Return None
  | Some section_text =>
    match rows section_text with
    | [] => Raise KeyError
    | data => df <- for_each profit_row data ;; Return (Some (profits_of df))
    end
  end.

(** ** The fee *)

Definition fee_pattern : string := "Transaktionsgebühren.*?([\d,.]+)\s*EUR".

Definition extract_transaction_fee (raw_text : str) : outcome pyfloat :=
  match re_search fee_pattern NoFlag raw_text with
  | Some m =>
    match float (replace_comma (group_at m 1)) with
    | Some fee => Return (fabs fee)
    | None => Raise ValueError
    end
  | None => Return zero
  end.

(** ** The report *)

Record report_row := {
  Zeile : str;
  Beschreibung : str;
  Betrag_num : pyfloat;
  Betrag : str
}.

(** One dictionary of [tax_rows], with the column [Betrag] that
    [f"{x:.2f} EUR"] adds. *)
Definition tax_row (zeile beschreibung : string) (betrag_num : pyfloat) : report_row :=
  {| Zeile := utf8 zeile;
     Beschreibung := utf8 beschreibung;
     Betrag_num := betrag_num;
     Betrag := format_2f betrag_num ++ utf8 " EUR" |}.

(** How a run of [main] ends. *)
Inductive run :=
| NoText                                (* nothing extracted: logged, no file *)
| Aborted (e : exn)                     (* an exception leaves [main], no file *)
| Saved (anlage_kap : list report_row). (* the frame given to [save_to_excel] *)

(** [main], from the text [extract_text_from_pdf] returned.  The rates
    [0.055] and [0.15] are the decimals they are written as. *)
Definition main (raw_text : str) : run :=
  match raw_text with
  | [] => NoText
  | _ =>
    match extract_transaction_fee raw_text with
    | Raise e => Aborted e
    | Return transaktionsgebuehren =>
      match extract_dividend_table raw_text with
      | EmptyDataFrame => Aborted ValueError
      | DividendTable dividend_df dividend_sum dividend_sum_de dividend_sum_ausl =>
        match extract_realized_profits_and_fees raw_text with
        | Raise e => Aborted e
        | Return None => Aborted TypeError
        | Return (Some p) =>
          let positive_entries := p_positive_entries p in
          let negative_entries := p_negative_entries p in
          let positive_entries_de := p_positive_entries_de p in
          let negative_entries_de := p_negative_entries_de p in
          let positive_entries_ausl := p_positive_entries_ausl p in
          let negative_entries_ausl := p_negative_entries_ausl p in
          let kapitalertraege := fadd dividend_sum_de positive_entries_de in
          let kapitalertraege_ausl :=
            fsub (fadd (fadd (fadd positive_entries_ausl negative_entries_ausl)
                             dividend_sum_ausl)
                       positive_entries_ausl)
                 transaktionsgebuehren in
          let kapitalertraege_de :=
            fadd (fadd positive_entries_de negative_entries_de) dividend_sum_de in
          let kapitalertragsteuer_divi :=
            fsum (map Dividend.Quellensteuer (filter Dividend.is_DE dividend_df)) in
          let soli_divi := fmul kapitalertragsteuer_divi (fin 55 1000) in
          let anrechenb_ausl_steuer := fmul dividend_sum_ausl (fin 15 100) in
          Saved
            [ tax_row "7" "Kapitalerträge" kapitalertraege;
              tax_row "8" "Gewinne aus Aktienveräußerungen" positive_entries;
              tax_row "12" "Nicht ausgeglichene Verluste aus der Veräußerung von Aktien"
                      negative_entries;
              tax_row "18" "Inländische Kapitalerträge" kapitalertraege_de;
              tax_row "19" "Ausländische Kapitalerträge" kapitalertraege_ausl;
              tax_row "20" "In den Zeilen 18 und 19 enthaltene Gewinne aus Aktienveräußerungen i. S. d. § 20 Abs. 2 Satz 1 Nr. 1 EStG"
                      positive_entries_ausl;
              tax_row "23" "In den Zeilen 18 und 19 enthaltene Verluste aus der Veräußerung von Aktien i. S. d. § 20 Abs. 2 Satz 1 Nr. 1 EStG"
                      negative_entries_ausl;
              tax_row "37" "Kapitalertragsteuer" kapitalertragsteuer_divi;
              tax_row "38" "Solidaritätszuschlag" soli_divi;
              tax_row "41" "Anrechenbare ausländische Steuern" anrechenb_ausl_steuer ]
        end
      end
    end
  end.

(** ** The notions the properties are stated with *)

(** [x <= y]; false when either is a NaN. *)
Definition fle (x y : pyfloat) : bool :=
  match x, y with
  | NaN, _ | _, NaN => false
  | _, _ => negb (flt y x)
  end.

(** Two values that denote the same number. *)
Definition feq (x y : pyfloat) : Prop :=
  match x, y with
  | Fin a, Fin b => (a == b)%Q
  | PInf, PInf | NInf, NInf | NaN, NaN => True
  | _, _ => False
  end.

(** A finite value in lowest terms. *)
Definition canonical (x : pyfloat) : Prop :=
  match x with
  | Fin q => Qred q = q
  | _ => True
  end.

(** The values of a column that [Series.sum] adds up. *)
Definition present (row : Type) (value : row -> pyfloat) (l : list row) : list pyfloat :=
  filter (fun x => negb (isnan x)) (map value l).

(** The least number of characters a match of a pattern takes. *)
Definition min_length (r : regex) : nat :=
  length (filter (fun n => match n with
                           | Cls _ Once | Cls _ OneOrMore => true
                           | _ => false
                           end) r).

(** A line with a character that is not whitespace. *)
Definition nonempty_line (l : str) : bool := negb (forallb isspace l).




Definition parses (s : str) : bool :=
  match float (replace_comma s) with Some _ => true | None => false end.

(** A record line of a well-formed dividend section: four tokens, the last
    three of them numbers. *)
Definition well_formed_line (l : str) : bool :=
  match re_split "\s+" l with
  | [_; b; q; n] => parses b && parses q && parses n
  | _ => false
  end.

(** A well-formed dividend section, in the words of the specification:
    of the non-empty lines of the section the last is the total line,
    and every line before it is a record line. *)
Definition well_formed (section : str) : bool :=
  match filter nonempty_line (split_lines (strip section)) with
  | [] => false
  | ls => forallb well_formed_line (removelast ls)
  end.

(** No line of the trimmed section is empty or holds whitespace only: the
    lines the source splits it into are its non-empty lines. *)
Definition no_blank_line (section : str) : bool :=
  forallb nonempty_line (split_lines (strip section)).

(** A text without its leading minus sign (code point 45), if it has one. *)
Definition unsigned (s : str) : str :=
  match s with
  | c :: r => if c =? 45 then r else s
  | [] => []
  end.

(** An amount with a sign or none, digits, a point (code point 46),
    exactly two digits, and the suffix [" EUR"]. *)
Definition two_decimals_EUR (s : str) : bool :=
  match span_digits (unsigned s) with
  | (_ :: _, p :: a :: b :: suffix) =>
    (p =? 46) && isdigit a && isdigit b && text_eqb suffix (utf8 " EUR")
  | _ => false
  end.

Definition line_ids : list str :=
  map utf8 ["7"; "8"; "12"; "18"; "19"; "20"; "23"; "37"; "38"; "41"]%string.

(** The report of a completed run, from what the three extractors
    returned. *)
Definition report (fee : pyfloat) (dividend_df : list Dividend.row)
           (df : list Profit.row) : list report_row :=
  [ tax_row "7" "Kapitalerträge"
            (fadd (dividend_sum_de dividend_df) (positive_entries_de df));
    tax_row "8" "Gewinne aus Aktienveräußerungen" (positive_entries df);
    tax_row "12" "Nicht ausgeglichene Verluste aus der Veräußerung von Aktien"
            (negative_entries df);
    tax_row "18" "Inländische Kapitalerträge"
            (fadd (fadd (positive_entries_de df) (negative_entries_de df))
                  (dividend_sum_de dividend_df));
    tax_row "19" "Ausländische Kapitalerträge"
            (fsub (fadd (fadd (fadd (positive_entries_ausl df)
                                    (negative_entries_ausl df))
                              (dividend_sum_ausl dividend_df))
                        (positive_entries_ausl df))
                  fee);
    tax_row "20" "In den Zeilen 18 und 19 enthaltene Gewinne aus Aktienveräußerungen i. S. d. § 20 Abs. 2 Satz 1 Nr. 1 EStG"
            (positive_entries_ausl df);
    tax_row "23" "In den Zeilen 18 und 19 enthaltene Verluste aus der Veräußerung von Aktien i. S. d. § 20 Abs. 2 Satz 1 Nr. 1 EStG"
            (negative_entries_ausl df);
    tax_row "37" "Kapitalertragsteuer"
            (fsum (map Dividend.Quellensteuer (filter Dividend.is_DE dividend_df)));
    tax_row "38" "Solidaritätszuschlag"
            (fmul (fsum (map Dividend.Quellensteuer
                             (filter Dividend.is_DE dividend_df)))
                  (fin 55 1000));
    tax_row "41" "Anrechenbare ausländische Steuern"
            (fmul (dividend_sum_ausl dividend_df) (fin 15 100)) ].

(** ** Documents used as examples *)

Definition sample_document : str :=
  document [ "Transaktionsgebühren insgesamt 12,50 EUR";
             "Land Bruttodividende Quellensteuer Nettodividende";
             "DE 100,00 26,38 73,62";
             "US 50,00 7,50 42,50";
             "TOTAL";
             "Kuponübersicht";
             "Realisierte Gewinne/Verluste je Produkt";
             "SAP SE DE0007164600 120,00 2,00";
             "APPLE INC US0378331005 -30,50 1,50";
             "Alle Dividenden und Kupons" ]%string.

(** No realized-gains section. *)
Definition document_without_gains : str :=
  document [ "Land Bruttodividende Quellensteuer Nettodividende";
             "DE 100,00 26,38 73,62";
             "TOTAL";
             "Kuponübersicht" ]%string.


(** No dividend section. *)
Definition document_without_dividends : str :=
  document [ "Realisierte Gewinne/Verluste je Produkt";
             "SAP SE DE0007164600 120,00 2,00";
             "Alle Dividenden und Kupons" ]%string.

(** The second dividend row has three tokens, the first has four. *)
Definition document_with_short_row : str :=
  document [ "Land Bruttodividende Quellensteuer Nettodividende";
             "DE 100,00 26,38 73,62";
             "US 50,00 7,50";
             "TOTAL";
             "Kuponübersicht";
             "Realisierte Gewinne/Verluste je Produkt";
             "SAP SE DE0007164600 120,00 2,00";
             "Alle Dividenden und Kupons" ]%string.

(** The only dividend row has three tokens. *)
Definition document_with_three_tokens : str :=
  document [ "Land Bruttodividende Quellensteuer Nettodividende";
             "DE 100,00 26,38";
             "TOTAL";
             "Kuponübersicht";
             "Realisierte Gewinne/Verluste je Produkt";
             "SAP SE DE0007164600 120,00 2,00";
             "Alle Dividenden und Kupons" ]%string.

(** The dividend section of [sample_document]. *)
Definition sample_section : str :=
  document [ "DE 100,00 26,38 73,62"; "US 50,00 7,50 42,50"; "TOTAL" ]%string.

(** The dividend section of [document_with_three_tokens]. *)
Definition three_token_section : str :=
  document [ "DE 100,00 26,38"; "TOTAL" ]%string.

(** A gross dividend printed as [inf]. *)
Definition document_with_inf : str :=
  document [ "Land Bruttodividende Quellensteuer Nettodividende";
             "DE inf 0,00 0,00";
             "TOTAL";
             "Kuponübersicht";
             "Realisierte Gewinne/Verluste je Produkt";
             "SAP SE DE0007164600 120,00 2,00";
             "Alle Dividenden und Kupons" ]%string.

(** What [main] saves for [sample_document]. *)
Definition sample_report : list report_row := Eval vm_compute in
  match main sample_document with Saved anlage_kap => anlage_kap | _ => [] end.

(** A fee with a thousands separator. *)
Definition fee_with_thousands : str := utf8 "Transaktionsgebühren 1.234,56 EUR".

Definition fee_scenario : str :=
  utf8 "... Transaktionsgebühren insgesamt 12,50 EUR ...".

(** The realized-gains section is there and has no row. *)
Definition document_without_rows : str :=
  document [ "Realisierte Gewinne/Verluste je Produkt";
             "keine Positionen";
             "Alle Dividenden und Kupons" ]%string.

(** * The rest of the program *)

(** ** [extract_text_from_pdf] *)

(** What pdfplumber gives for a path: opening the file can raise, and so
    can the extraction of the text of a page; a page without text gives
    [None].  Which exception it is does not show: the function catches
    them all. *)
Definition pdf := outcome (list (outcome (option str))).

(** [t or ""] *)
Definition or_empty (t : option str) : str :=
  match t with
  | Some s => s
  | None => []
  end.

(** The loop over the pages, from the text gathered so far. *)
Fixpoint read_pages (pages : list (outcome (option str))) (all_text : str) : outcome str :=
  match pages with
  | [] => Return all_text
  | page :: pages' => t <- page ;; read_pages pages' (all_text ++ or_empty t)
  end.

Definition extract_text_from_pdf (f : pdf) : str :=
  match pages <- f ;; read_pages pages [] with
  | Return all_text => all_text
  | Raise _ => []
  end.

(** [main] from the PDF to the frame it saves. *)
Definition main_pdf (f : pdf) : run := main (extract_text_from_pdf f).

(** ** [extract_general_data] *)

(** The count between the braces of [{n}], after the opening brace. *)
Definition count_of (p : str) : option (nat * str) :=
  match span_digits p with
  | ((_ :: _) as ds, 125 :: r) => Some (Z.to_nat (digits_value ds), r)
  | _ => None
  end.

(** A pattern with its counts [X{n}] written out as [n] times [X], for an
    atom [X] that is a character or an escape; a count after anything else
    is outside the fragment ([123] is the opening brace). *)
Fixpoint expand_counts (fuel : nat) (p : str) : option str :=
  match fuel with
  | O => None
  | S fuel' =>
    match p with
    | [] => Some []
    | c :: r =>
      let (atom, r1) :=
        if c =? Pattern.backslash
        then match r with
             | e :: r' => ([c; e], r')
             | [] => ([c], [])
             end
        else ([c], r) in
      match r1 with
      | 123 :: r2 =>
        if Pattern.metachar c || (c =? Pattern.lparen) || (c =? Pattern.rparen)
           || (c =? Pattern.lbracket)
        then None
        else match count_of r2 with
             | Some (n, r3) =>
               option_map (app (concat (repeat atom n))) (expand_counts fuel' r3)
             | None => None
             end
      | _ => option_map (app atom) (expand_counts fuel' r1)
      end
    end
  end.

(** [re.compile] for a pattern with counts. *)
Definition re_compile_counts (pattern : string) (f : flag) : option regex :=
  let p := utf8 pattern in
  match expand_counts (S (length p)) p with
  | Some p' =>
    Pattern.parse (S (length p')) (match f with DOTALL => true | NoFlag => false end) p'
  | None => None
  end.

Definition general_pattern : string := "(.*?) (\d+,\d{2} EUR)".

(** [re.findall(general_pattern, line)] *)
Definition general_matches (line : str) : list (list str) :=
  match re_compile_counts general_pattern NoFlag with
  | Some r => findall_from (S (length line)) r line
  | None => []
  end.

(** The pairs of a description and an amount, line by line.  Nothing in
    the body raises, so the [except] branch is never taken. *)
Definition extract_general_data (text : str) : list (list str) :=
  flat_map (fun line =>
              map (fun m => [strip (nth 0 m []); strip (nth 1 m [])])
                  (general_matches line))
           (split_lines text).

(** ** Notions and documents of the further properties *)

(** A text without a whitespace character. *)
Definition no_space (s : str) : bool := forallb (fun c => negb (isspace c)) s.

(** A dividend table with its last line only. *)
Definition document_with_total_only : str :=
  document [ "Land Bruttodividende Quellensteuer Nettodividende";
             "TOTAL";
             "Kuponübersicht";
             "Realisierte Gewinne/Verluste je Produkt";
             "SAP SE DE0007164600 120,00 2,00";
             "Alle Dividenden und Kupons" ]%string.

(** The nodes of a text matched character by character. *)
Definition literal (s : str) : regex := map (fun c => Cls (N.eqb c) Once) s.

(** A pattern without a group. *)
Definition no_group (r : regex) : bool :=
  forallb (fun n => match n with Cls _ _ => true | _ => false end) r.

(** The character sets of the patterns of the program. *)
Definition fee_set : char -> bool :=
  Pattern.union (Pattern.union (Pattern.union (fun _ => false) isdecimal)
                               (N.eqb 44)) (N.eqb 46).

Definition name_set : char -> bool :=
  Pattern.union
    (Pattern.union
       (Pattern.union
          (Pattern.union
             (Pattern.union
                (Pattern.union
                   (Pattern.union (fun _ => false) (in_range 65 90))
                   (in_range 97 122))
                (in_range 48 57))
             isspace)
          (N.eqb 38))
       (N.eqb 46))
    (N.eqb 45).

Definition isin_set : char -> bool :=
  Pattern.union (Pattern.union (fun _ => false) (in_range 65 90)) (in_range 48 57).

Definition number_set : char -> bool :=
  Pattern.union
    (Pattern.union (Pattern.union (Pattern.union (fun _ => false) (N.eqb 45))
                                  (in_range 48 57))
                   (N.eqb 44))
    (N.eqb 46).

(** What [re_compile] makes of [fee_pattern] and of [table_pattern]. *)
Definition fee_regex : regex :=
  literal (utf8 "Transaktionsgebühren")
    ++ [ Cls (fun x => false || negb (x =? NL)) LazyZeroOrMore;
         GroupOpen; Cls fee_set OneOrMore; GroupClose;
         Cls isspace ZeroOrMore ]
    ++ literal (utf8 "EUR").

Definition table_regex : regex :=
  [ GroupOpen; Cls name_set OneOrMore; GroupClose; Cls isspace OneOrMore;
    GroupOpen; Cls isin_set OneOrMore; GroupClose; Cls isspace OneOrMore;
    GroupOpen; Cls number_set OneOrMore; GroupClose; Cls isspace OneOrMore;
    GroupOpen; Cls number_set OneOrMore; GroupClose ].

(** A character that is no ASCII letter. *)
Definition not_letter (c : char) : bool :=
  negb (in_range 65 90 c || in_range 97 122 c).

(** What [re_compile_counts] makes of [general_pattern]. *)
Definition general_regex : regex :=
  [ GroupOpen; Cls (fun x => false || negb (x =? NL)) LazyZeroOrMore; GroupClose;
    Cls (N.eqb 32) Once;
    GroupOpen; Cls isdecimal OneOrMore; Cls (N.eqb 44) Once;
    Cls isdecimal Once; Cls isdecimal Once ]
    ++ literal (utf8 " EUR") ++ [GroupClose].

(** An amount as [extract_general_data] finds it: decimal digits, a comma,
    two decimal digits and [" EUR"]. *)
Definition amount_EUR (value : str) : Prop :=
  exists ds a b,
    value = ds ++ 44 :: a :: b :: utf8 " EUR" /\ ds <> [] /\
    forallb isdecimal ds = true /\ isdecimal a = true /\ isdecimal b = true.

(** A statement of three lines. *)
Definition general_document : str :=
  document [ "Ausschüttungen 12,34 EUR  Zinsen 0,50 EUR";
             "ohne Betrag";
             "Gebühren  1.234,56 EUR" ]%string.

(** The anchors of the two sections, and what [re_compile] makes of the
    two section patterns. *)
Definition dividend_start : str :=
  utf8 "Land Bruttodividende Quellensteuer Nettodividende" ++ [NL].

Definition dividend_end : str := NL :: utf8 "Kuponübersicht".

Definition realized_start : str := utf8 "Realisierte Gewinne/Verluste je Produkt".

Definition realized_end : str := utf8 "Alle Dividenden und Kupons".

Definition dividend_regex : regex :=
  literal dividend_start
    ++ [GroupOpen; Cls (fun x => true || negb (x =? NL)) LazyZeroOrMore; GroupClose]
    ++ literal dividend_end.

Definition section_regex : regex :=
  GroupOpen :: literal realized_start
    ++ [ GroupClose;
         GroupOpen; Cls (fun x => true || negb (x =? NL)) LazyZeroOrMore; GroupClose;
         GroupOpen ]
    ++ literal realized_end ++ [GroupClose].

(** A text that holds another. *)
Definition occurs (x s : str) : Prop := exists u w, s = u ++ x ++ w.

(** * The dividend table in binary64 *)

(** The amounts above are exact rationals.  Where the rounding of the
    additions decides a property, the dividend table is taken again with
    the floats of the source: IEEE 754 binary64, as specified by
    [SpecFloat] (53 bits of precision, round to nearest even, signed
    zeros, infinities and a NaN). *)
Module Binary64.

Definition float64 := SpecFloat.spec_float.

Definition prec : Z := 53.
Definition emax : Z := 1024.

Definition zero : float64 := SpecFloat.S754_zero false.
Definition nan : float64 := SpecFloat.S754_nan.

Definition fadd : float64 -> float64 -> float64 := SpecFloat.SFadd prec emax.
Definition fdiv : float64 -> float64 -> float64 := SpecFloat.SFdiv prec emax.


Definition isnan (x : float64) : bool :=
  match x with SpecFloat.S754_nan => true | _ => false end.

(** The binary64 value nearest to the rational [q >= 0], with the sign
    [neg]: the correctly rounded quotient of its numerator and its
    denominator. *)
Definition nearest (neg : bool) (q : Q) : float64 :=
  match Qnum q with
  | Zpos n =>
    fdiv (SpecFloat.S754_finite neg n 0) (SpecFloat.S754_finite false (Qden q) 0)
  | _ => SpecFloat.S754_zero neg
  end.

(** [float(s)] as a binary64 value: the literal is read as above and
    rounded once, to the nearest value; a literal too large gives an
    infinity, one too small a zero, and a zero keeps its sign. *)
Definition float (s : str) : option float64 :=
  let a := rev (drop_spaces (rev (drop_spaces (map to_ascii s)))) in
  match drop_underscores 0 a with
  | None => None
  | Some b =>
    let (neg, r) := take_sign b in
    let w := map lower r in
    if text_eqb w (utf8 "inf") || text_eqb w (utf8 "infinity")
    then Some (SpecFloat.S754_infinity neg)
    else if text_eqb w (utf8 "nan") then Some nan
    else option_map (nearest neg) (parse_decimal r)
  end.

(** [column.str.replace(',', '.').astype(float)] on one cell. *)
Definition astype_float (cell : option str) : outcome float64 :=
  match cell with
  | None => Return nan
  | Some s =>
    match float (replace_comma s) with
    | Some x => Return x
    | None => Raise ValueError
    end
  end.

Record row := {
  Land : option str;
  Bruttodividende : float64;
  Quellensteuer : float64;
  Nettodividende : float64;
  Steuersatz : float64
}.

(** [df["Land"] == "DE"]; a missing cell is not equal to it. *)
Definition is_DE (r : row) : bool :=
  match Land r with
  | Some l => text_eqb l DE
  | None => false
  end.

(** [df["Land"] != "DE"] *)
Definition is_not_DE (r : row) : bool := negb (is_DE r).

Definition dividend_row (cells : list (option str)) : outcome row :=
  match cells with
  | [land; brutto; quellen; netto] =>
    b <- astype_float brutto ;;
    q <- astype_float quellen ;;
    n <- astype_float netto ;;
    Return {| Land := land;
              Bruttodividende := b;
              Quellensteuer := q;
              Nettodividende := n;
              Steuersatz := fdiv q b |}
  | _ => Raise ValueError
  end.

(** [Series.sum()] of a float column: a NaN counts as [0.0], and the
    values are added to [0.0] one after the other, each addition rounded.
    This is the order of numpy for fewer than eight values; it groups the
    additions of a longer column differently, which is not followed. *)
Definition series_sum (column : list float64) : float64 :=
  fold_left fadd (map (fun x => if isnan x then zero else x) column) zero.

Definition dividend_sum (df : list row) : float64 :=
  series_sum (map Bruttodividende df).

Definition dividend_sum_de (df : list row) : float64 :=
  series_sum (map Bruttodividende (filter is_DE df)).

Definition dividend_sum_ausl (df : list row) : float64 :=
  series_sum (map Bruttodividende (filter is_not_DE df)).

Inductive dividend_result :=
| DividendTable (dividend_df : list row)
                (dividend_sum dividend_sum_de dividend_sum_ausl : float64)
| EmptyDataFrame.

Definition extract_dividend_table (text : str) : dividend_result :=
  match dividend_section text with
  | None => EmptyDataFrame
  | Some section =>
    match frame <- DataFrame (divi_data section) 4 ;; for_each dividend_row frame with
    | Return df =>
      DividendTable df (dividend_sum df) (dividend_sum_de df) (dividend_sum_ausl df)
    | Raise _ => EmptyDataFrame
    end
  end.


End Binary64.



(** The binary64 values [0.6000000000000001], [0.6], [0.5] and [0.1]. *)
Definition above_six_tenths : Binary64.float64 :=
  SpecFloat.S754_finite false 5404319552844596 (-53).

Definition six_tenths : Binary64.float64 :=
  SpecFloat.S754_finite false 5404319552844595 (-53).

Definition one_half : Binary64.float64 :=
  SpecFloat.S754_finite false 4503599627370496 (-53).

Definition one_tenth : Binary64.float64 :=
  SpecFloat.S754_finite false 7205759403792794 (-56).

(** * Properties *)

Ltac conjuncts := repeat match goal with |- _ /\ _ => split end.

(** Evaluation of the program on a document. *)
Ltac run := vm_compute; reflexivity.

(** ** Arithmetic of the extended rationals *)

#[local] Arguments Qred : simpl never.
#[local] Arguments Qplus : simpl never.
#[local] Arguments Qopp : simpl never.
#[local] Arguments Qmult : simpl never.

Lemma Qred_idem q : Qred (Qred q) = Qred q.
Proof. apply Qred_complete, Qred_correct. Qed.

Lemma feq_refl x : feq x x.
Proof. destruct x; simpl; auto. reflexivity. Qed.

Lemma feq_trans x y z : feq x y -> feq y z -> feq x z.
Proof.
  destruct x, y, z; simpl; auto; try contradiction.
  intros H1 H2. rewrite H1. exact H2.
Qed.

Lemma feq_canonical x y : canonical x -> canonical y -> feq x y -> x = y.
Proof.
  destruct x as [a| | |], y as [b| | |]; simpl; try contradiction; auto.
  intros Ha Hb H. rewrite <- Ha, <- Hb. f_equal. now apply Qred_complete.
Qed.

Lemma fadd_canonical x y : canonical (fadd x y).
Proof. destruct x, y; simpl; auto. apply Qred_idem. Qed.

Ltac fcases :=
  repeat match goal with
         | x : pyfloat |- _ => destruct x
         end;
  simpl in *; auto; try contradiction.

Lemma fadd_feq_l a a' x : feq a a' -> feq (fadd a x) (fadd a' x).
Proof. fcases. intros H. rewrite !Qred_correct, H. reflexivity. Qed.

Lemma fadd_swap a b x : feq (fadd (fadd a b) x) (fadd (fadd a x) b).
Proof. fcases. rewrite !Qred_correct. ring. Qed.

Lemma fadd_assoc a b x : feq (fadd (fadd a b) x) (fadd a (fadd b x)).
Proof. fcases. rewrite !Qred_correct. ring. Qed.

Lemma fold_fadd_feq l : forall c c', feq c c' ->
  feq (fold_left fadd l c) (fold_left fadd l c').
Proof.
  induction l as [|x l IH]; intros c c' H; simpl; auto.
  apply IH, fadd_feq_l, H.
Qed.

Lemma fold_fadd_canonical l : forall c, canonical c -> canonical (fold_left fadd l c).
Proof.
  induction l as [|x l IH]; intros c H; simpl; auto.
  apply IH, fadd_canonical.
Qed.

Lemma fsum_canonical l : canonical (fsum l).
Proof. apply fold_fadd_canonical. reflexivity. Qed.

(** ** The split of a column by a predicate on the rows *)

Section Split.
Variable row : Type.
Variable value : row -> pyfloat.
Variable p : row -> bool.

Lemma fold_split l : forall a b,
  feq (fold_left fadd (present value l) (fadd a b))
      (fadd (fold_left fadd (present value (filter p l)) a)
            (fold_left fadd (present value (filter (fun r => negb (p r)) l)) b)).
Proof.
  unfold present.
  induction l as [|x l IH]; intros a b; simpl.
  - apply feq_refl.
  - destruct (p x) eqn:Hp; simpl; destruct (isnan (value x)) eqn:Hn; simpl; auto.
    + eapply feq_trans; [|apply IH].
      apply fold_fadd_feq, fadd_swap.
    + eapply feq_trans; [|apply IH].
      apply fold_fadd_feq, fadd_assoc.
Qed.

Lemma fsum_split l :
  fsum (map value l)
  = fadd (fsum (map value (filter p l)))
         (fsum (map value (filter (fun r => negb (p r)) l))).
Proof.
  apply feq_canonical.
  - apply fsum_canonical.
  - apply fadd_canonical.
  - eapply feq_trans; [|apply fold_split].
    apply (fold_fadd_feq (present value l) zero (fadd zero zero)).
    simpl. reflexivity.
Qed.
End Split.

(** With the exact additions of [pyfloat] the total of the gross dividends
    is the domestic sum plus the foreign sum.  The sums of the source are
    binary64 sums, each rounded on its own: see [Binary64]. *)
Lemma exact_sum_is_domestic_plus_foreign (dividend_df : list Dividend.row) :
  dividend_sum dividend_df
  = fadd (dividend_sum_de dividend_df) (dividend_sum_ausl dividend_df).
Proof. apply fsum_split. Qed.

(** ** The dividend sums in binary64 *)







(** The four values used below are what [float] reads from their shortest
    decimal texts. *)
Example binary64_values :
  map (fun s => Binary64.float (utf8 s))
      ["0.6000000000000001"; "0.6"; "0.5"; "0.1"]%string
  = [Some above_six_tenths; Some six_tenths; Some one_half; Some one_tenth].
Proof. run. Qed.




(** ** The sign of a sum of gains or of losses *)

Lemma fadd_nonneg acc x :
  fle zero acc = true -> fgt x zero = true -> fle zero (fadd acc x) = true.
Proof.
  unfold fgt.
  destruct acc as [a| | |], x as [b| | |]; simpl; try discriminate; auto.
  rewrite !negb_true_iff, !negb_false_iff.
  intros Ha Hb. apply Qle_bool_iff in Ha. apply Qle_bool_iff.
  rewrite Qred_correct.
  destruct (Qlt_le_dec 0 b) as [H|H].
  - lra.
  - apply Qle_bool_iff in H. congruence.
Qed.

Lemma fadd_nonpos acc x :
  fle acc zero = true -> flt x zero = true -> fle (fadd acc x) zero = true.
Proof.
  destruct acc as [a| | |], x as [b| | |]; simpl; try discriminate; auto.
  rewrite !negb_true_iff, !negb_false_iff.
  intros Ha Hb. apply Qle_bool_iff in Ha. apply Qle_bool_iff.
  rewrite Qred_correct.
  destruct (Qlt_le_dec b 0) as [H|H].
  - lra.
  - apply Qle_bool_iff in H. congruence.
Qed.

Lemma fold_nonneg l : forall acc,
  Forall (fun x => fgt x zero = true) l ->
  fle zero acc = true -> fle zero (fold_left fadd l acc) = true.
Proof.
  induction l as [|x l IH]; intros acc Hl Hacc; simpl; auto.
  inversion Hl; subst. apply IH; auto. now apply fadd_nonneg.
Qed.

Lemma fold_nonpos l : forall acc,
  Forall (fun x => flt x zero = true) l ->
  fle acc zero = true -> fle (fold_left fadd l acc) zero = true.
Proof.
  induction l as [|x l IH]; intros acc Hl Hacc; simpl; auto.
  inversion Hl; subst. apply IH; auto. now apply fadd_nonpos.
Qed.

Lemma Forall_present (P : pyfloat -> Prop) l :
  Forall P l -> Forall P (filter (fun x => negb (isnan x)) l).
Proof.
  intros H. apply Forall_forall. intros x Hx.
  apply filter_In in Hx. destruct Hx as [Hx _].
  revert x Hx. now apply Forall_forall.
Qed.

Lemma Forall_filter_mask (mask q : Profit.row -> bool) df :
  (forall r, mask r = true -> q r = true) ->
  Forall (fun r => q r = true) (filter mask df).
Proof.
  intros H. apply Forall_forall. intros r Hr.
  apply filter_In in Hr. now apply H.
Qed.

(** The sum over a bucket of gains is not negative. *)
Lemma sum_GV_nonneg mask df :
  (forall r, mask r = true -> Profit.positive r = true) ->
  fle zero (sum_GV mask df) = true.
Proof.
  intros H. unfold sum_GV, fsum.
  apply fold_nonneg; [|reflexivity].
  apply Forall_present, Forall_map.
  now apply (Forall_filter_mask mask Profit.positive).
Qed.

(** The sum over a bucket of losses is not positive. *)
Lemma sum_GV_nonpos mask df :
  (forall r, mask r = true -> Profit.negative r = true) ->
  fle (sum_GV mask df) zero = true.
Proof.
  intros H. unfold sum_GV, fsum.
  apply fold_nonpos; [|reflexivity].
  apply Forall_present, Forall_map.
  now apply (Forall_filter_mask mask Profit.negative).
Qed.

(** C6: for every list of realized-gain records the sum of the positive
    net results is at least zero and the sum of the negative net results
    at most zero, overall and in the domestic and the foreign bucket, and
    every record that a bucket sums has a net result (realized gain or
    loss minus transaction fee) of the sign of the bucket. *)
Theorem net_result_sums_have_the_sign_of_their_bucket (df : list Profit.row) :
  (fle zero (positive_entries df) = true /\
   fle (negative_entries df) zero = true) /\
  (fle zero (positive_entries_de df) = true /\
   fle (negative_entries_de df) zero = true /\
   fle zero (positive_entries_ausl df) = true /\
   fle (negative_entries_ausl df) zero = true) /\
  Forall (fun r => fgt (fsub (Profit.Realisierte_Gewinne_Verluste r)
                             (Profit.Transaktionsgebuehr r)) zero = true)
         (filter Profit.positive df) /\
  Forall (fun r => flt (fsub (Profit.Realisierte_Gewinne_Verluste r)
                             (Profit.Transaktionsgebuehr r)) zero = true)
         (filter Profit.negative df).
Proof.
  conjuncts.
  - now apply sum_GV_nonneg.
  - now apply sum_GV_nonpos.
  - apply sum_GV_nonneg. intros r H. now apply andb_true_iff in H.
  - apply sum_GV_nonpos. intros r H. now apply andb_true_iff in H.
  - apply sum_GV_nonneg. intros r H. now apply andb_true_iff in H.
  - apply sum_GV_nonpos. intros r H. now apply andb_true_iff in H.
  - now apply (Forall_filter_mask Profit.positive Profit.positive).
  - now apply (Forall_filter_mask Profit.negative Profit.negative).
Qed.

(** ** What a completed run has computed *)

Lemma extract_dividend_table_sums text df s sde sausl :
  extract_dividend_table text = DividendTable df s sde sausl ->
  s = dividend_sum df /\ sde = dividend_sum_de df /\ sausl = dividend_sum_ausl df.
Proof.
  unfold extract_dividend_table.
  destruct (dividend_section text); [|discriminate].
  destruct (bind _ _); [|discriminate].
  intros H. injection H as <- <- <- <-. auto.
Qed.

Lemma extract_realized_profits_of raw_text p :
  extract_realized_profits_and_fees raw_text = Return (Some p) ->
  p = profits_of (profits_df p).
Proof.
  unfold extract_realized_profits_and_fees.
  destruct (realized_section raw_text); [|discriminate].
  destruct (rows s); [discriminate|].
  destruct (for_each profit_row _); simpl; [|discriminate].
  intros H. injection H as <-. reflexivity.
Qed.

Lemma main_saved raw_text anlage_kap :
  main raw_text = Saved anlage_kap ->
  exists fee dividend_df df,
    extract_transaction_fee raw_text = Return fee /\
    extract_dividend_table raw_text
    = DividendTable dividend_df (dividend_sum dividend_df)
                    (dividend_sum_de dividend_df) (dividend_sum_ausl dividend_df) /\
    extract_realized_profits_and_fees raw_text = Return (Some (profits_of df)) /\
    anlage_kap = report fee dividend_df df.
Proof.
  unfold main. destruct raw_text as [|c raw_text]; [discriminate|].
  destruct (extract_transaction_fee _) as [fee|] eqn:Hfee; [|discriminate].
  destruct (extract_dividend_table _) as [ddf s sde sausl|] eqn:Hdiv; [|discriminate].
  destruct (extract_realized_profits_and_fees _) as [[p|]|] eqn:Hp; try discriminate.
  intros H. injection H as <-.
  destruct (extract_dividend_table_sums _ Hdiv) as (-> & -> & ->).
  rewrite (extract_realized_profits_of _ Hp).
  exists fee, ddf, (profits_df p). conjuncts; auto.
Qed.

(** C3: in every completed run the amount of report line 19 is the sum of
    the foreign positive net results, plus the sum of the foreign negative
    net results, plus the foreign gross dividends, plus the sum of the
    foreign positive net results a second time, minus the fee scalar. *)
Theorem line_19_adds_foreign_gains_twice (raw_text : str) (anlage_kap : list report_row) :
  main raw_text = Saved anlage_kap ->
  exists fee dividend_df df,
    extract_transaction_fee raw_text = Return fee /\
    extract_dividend_table raw_text
    = DividendTable dividend_df (dividend_sum dividend_df)
                    (dividend_sum_de dividend_df) (dividend_sum_ausl dividend_df) /\
    extract_realized_profits_and_fees raw_text = Return (Some (profits_of df)) /\
    map Betrag_num (filter (fun r => text_eqb (Zeile r) (utf8 "19")) anlage_kap)
    = [ fsub (fadd (fadd (fadd (positive_entries_ausl df) (negative_entries_ausl df))
                         (dividend_sum_ausl dividend_df))
                   (positive_entries_ausl df))
             fee ].
Proof.
  intros H. destruct (main_saved _ H) as (fee & ddf & df & Hfee & Hdiv & Hp & ->).
  exists fee, ddf, df. conjuncts; auto.
Qed.

(** Line 19 of the report of [sample_document]. *)
Lemma line_19_of_the_sample :
  main sample_document = Saved sample_report /\
  exists fee dividend_df df,
    extract_transaction_fee sample_document = Return fee /\
    extract_dividend_table sample_document
    = DividendTable dividend_df (dividend_sum dividend_df)
                    (dividend_sum_de dividend_df) (dividend_sum_ausl dividend_df) /\
    extract_realized_profits_and_fees sample_document
    = Return (Some (profits_of df)) /\
    map Betrag_num (filter (fun r => text_eqb (Zeile r) (utf8 "19")) sample_report)
    = [ fsub (fadd (fadd (fadd (positive_entries_ausl df) (negative_entries_ausl df))
                         (dividend_sum_ausl dividend_df))
                   (positive_entries_ausl df))
             fee ].
Proof.
  assert (H : main sample_document = Saved sample_report) by (vm_compute; reflexivity).
  split; [exact H | exact (line_19_adds_foreign_gains_twice _ H)].
Defined.

(** ** The format of an amount *)

Lemma uint_text_digits u : forallb isdigit (uint_text u) = true.
Proof. induction u; simpl; auto. Qed.

Lemma uint_text_nonempty u : u <> Decimal.Nil -> uint_text u <> [].
Proof. destruct u; simpl; congruence. Qed.

Lemma digits_of_nonempty n : digits_of n <> [].
Proof.
  unfold digits_of. apply uint_text_nonempty.
  destruct n as [|p]; simpl; [discriminate|apply Unsigned.to_uint_nonnil].
Qed.

Lemma span_digits_app ds c rest :
  forallb isdigit ds = true -> isdigit c = false ->
  span_digits (ds ++ c :: rest) = (ds, c :: rest).
Proof.
  intros Hds Hc. induction ds as [|d ds IH]; simpl.
  - now rewrite Hc.
  - simpl in Hds. apply andb_true_iff in Hds. destruct Hds as [Hd Hds].
    rewrite Hd, (IH Hds). reflexivity.
Qed.

Lemma isdigit_offset n : n < 10 -> isdigit (48 + n) = true.
Proof.
  intros H. unfold isdigit, in_range.
  apply andb_true_iff. split; apply N.leb_le; lia.
Qed.

Lemma unsigned_digits ds rest :
  ds <> [] -> forallb isdigit ds = true -> unsigned (ds ++ rest) = ds ++ rest.
Proof.
  destruct ds as [|d ds]; [congruence|]. intros _ H. simpl in *.
  apply andb_true_iff in H. destruct H as [H _].
  destruct (d =? 45) eqn:E; auto.
  apply N.eqb_eq in E. subst d. discriminate.
Qed.

(** A finite amount is printed with exactly two digits after the point. *)
Lemma format_2f_finite q :
  format_2f (Fin q) ++ utf8 " EUR"
  = (if (Qnum q <? 0)%Z then [45] else [])
      ++ digits_of (round_hundredths q / 100)
      ++ 46 :: [48 + (round_hundredths q / 10) mod 10; 48 + round_hundredths q mod 10]
      ++ utf8 " EUR".
Proof. unfold format_2f. cbv zeta. now rewrite <- !app_assoc. Qed.

Lemma format_finite q : two_decimals_EUR (format_2f (Fin q) ++ utf8 " EUR") = true.
Proof.
  rewrite format_2f_finite. unfold two_decimals_EUR.
  set (h := round_hundredths q).
  set (tail := 46 :: [48 + (h / 10) mod 10; 48 + h mod 10] ++ utf8 " EUR").
  assert (Hu : unsigned ((if (Qnum q <? 0)%Z then [45] else [])
                         ++ digits_of (h / 100) ++ tail)
               = digits_of (h / 100) ++ tail).
  { destruct (Qnum q <? 0)%Z; [reflexivity|].
    change (unsigned (digits_of (h / 100) ++ tail) = digits_of (h / 100) ++ tail).
    apply unsigned_digits;
      [apply digits_of_nonempty|apply uint_text_digits]. }
  rewrite Hu. unfold tail.
  rewrite span_digits_app; [|apply uint_text_digits|reflexivity].
  destruct (digits_of (h / 100)) eqn:E; [now apply digits_of_nonempty in E|].
  cbn [app].
  rewrite !isdigit_offset; [reflexivity| |]; apply N.mod_lt; discriminate.
Qed.

Lemma report_ids fee ddf df : map Zeile (report fee ddf df) = line_ids.
Proof. reflexivity. Qed.

Lemma report_amounts fee ddf df :
  Forall (fun r => Betrag r = format_2f (Betrag_num r) ++ utf8 " EUR")
         (report fee ddf df).
Proof. unfold report. repeat constructor. Qed.

(** C8 as the code has it: every completed run saves exactly the ten
    report lines 7, 8, 12, 18, 19, 20, 23, 37, 38, 41, in this order,
    whatever the document; the amount of a line is printed by
    [f"{x:.2f} EUR"], which gives a decimal with exactly two fraction
    digits and the suffix [" EUR"] exactly when the amount is finite. *)
Theorem report_lines_are_fixed (raw_text : str) (anlage_kap : list report_row) :
  main raw_text = Saved anlage_kap ->
  length anlage_kap = 10%nat /\
  map Zeile anlage_kap = line_ids /\
  Forall (fun r => Betrag r = format_2f (Betrag_num r) ++ utf8 " EUR" /\
                   two_decimals_EUR (Betrag r) = isfinite (Betrag_num r))
         anlage_kap.
Proof.
  intros H. destruct (main_saved _ H) as (fee & ddf & df & _ & _ & _ & ->).
  split; [reflexivity|]. split; [apply report_ids|].
  eapply Forall_impl; [|apply report_amounts].
  intros r Hr. split; [exact Hr|]. rewrite Hr.
  destruct (Betrag_num r) as [q| | |]; try reflexivity.
  apply format_finite.
Qed.

(** The ten lines of the report of [sample_document]. *)
Lemma report_lines_of_the_sample :
  main sample_document = Saved sample_report /\
  length sample_report = 10%nat /\
  map Zeile sample_report = line_ids /\
  Forall (fun r => Betrag r = format_2f (Betrag_num r) ++ utf8 " EUR" /\
                   two_decimals_EUR (Betrag r) = isfinite (Betrag_num r))
         sample_report.
Proof.
  assert (H : main sample_document = Saved sample_report) by (vm_compute; reflexivity).
  split; [exact H | exact (report_lines_are_fixed _ H)].
Defined.

(** C8 as stated fails: the run on [document_with_inf] completes, and the
    amounts of its lines 7 and 18 are printed as ["inf EUR"], without
    fraction digits. *)
Lemma infinite_amount_has_no_fraction_digits :
  exists anlage_kap,
    main document_with_inf = Saved anlage_kap /\
    map (fun r => two_decimals_EUR (Betrag r)) anlage_kap
    = [false; true; true; false; true; true; true; true; true; true] /\
    map Betrag (filter (fun r => text_eqb (Zeile r) (utf8 "7")) anlage_kap)
    = [utf8 "inf EUR"].
Proof. eexists. split; [vm_compute; reflexivity|]. split; vm_compute; reflexivity. Qed.

(** ** A missing section *)

Lemma main_without_gains raw_text :
  realized_section raw_text = None ->
  forall anlage_kap, main raw_text <> Saved anlage_kap.
Proof.
  intros H a Hm. destruct (main_saved _ Hm) as (_ & _ & df & _ & _ & Hp & _).
  unfold extract_realized_profits_and_fees in Hp. rewrite H in Hp. discriminate.
Qed.

Lemma main_without_dividends raw_text :
  dividend_section raw_text = None ->
  forall anlage_kap, main raw_text <> Saved anlage_kap.
Proof.
  intros H a Hm. destruct (main_saved _ Hm) as (_ & ddf & _ & _ & Hd & _ & _).
  unfold extract_dividend_table in Hd. rewrite H in Hd. discriminate.
Qed.

(** C1, on the code: a document without the realized-gains section makes
    the extractor return [None], which [main] unpacks into seven names, a
    [TypeError]; a document without the dividend section makes the
    extractor return the empty frame, which [main] unpacks into four
    names, a [ValueError].  Neither run saves a report. *)
Theorem missing_section_aborts_the_run :
  (realized_section document_without_gains = None /\
   extract_realized_profits_and_fees document_without_gains = Return None /\
   main document_without_gains = Aborted TypeError) /\
  (dividend_section document_without_dividends = None /\
   extract_dividend_table document_without_dividends = EmptyDataFrame /\
   main document_without_dividends = Aborted ValueError).
Proof. conjuncts; run. Qed.

(** ** A malformed dividend row *)

Lemma fee_raises_ValueError raw_text e :
  extract_transaction_fee raw_text = Raise e -> e = ValueError.
Proof.
  unfold extract_transaction_fee.
  destruct (re_search _ _ _); [|discriminate].
  destruct (float _); [discriminate|]. now intros [= <-].
Qed.

Lemma dividend_section_nonempty text section :
  dividend_section text = Some section -> text <> [].
Proof. intros H ->. vm_compute in H. discriminate. Qed.

Lemma main_empty_frame raw_text :
  raw_text <> [] -> extract_dividend_table raw_text = EmptyDataFrame ->
  main raw_text = Aborted ValueError.
Proof.
  intros Hne Hd. unfold main. destruct raw_text as [|c raw_text]; [congruence|].
  rewrite Hd. destruct (extract_transaction_fee _) eqn:Hfee; auto.
  now rewrite (fee_raises_ValueError _ Hfee).
Qed.

(** C2 as the code has it: when the dividend section has a record row and
    the longest of its record rows splits into a number of tokens other
    than four, the extraction fails as a whole, no record is produced, and
    the run aborts without a report. *)
Theorem widest_row_other_than_four_fails (text section : str) :
  dividend_section text = Some section ->
  divi_data section <> [] ->
  widest (divi_data section) <> 4%nat ->
  extract_dividend_table text = EmptyDataFrame /\ main text = Aborted ValueError.
Proof.
  intros Hs Hne Hw.
  assert (Hd : extract_dividend_table text = EmptyDataFrame).
  { unfold extract_dividend_table. rewrite Hs. unfold DataFrame.
    destruct (divi_data section) as [|r data]; [congruence|].
    apply Nat.eqb_neq in Hw. now rewrite Hw. }
  split; [exact Hd|].
  apply main_empty_frame; [|exact Hd].
  now apply dividend_section_nonempty with section.
Qed.

(** The only record row of [document_with_three_tokens] has three tokens:
    no table, no report. *)
Lemma three_token_row_fails :
  (dividend_section document_with_three_tokens = Some three_token_section /\
   map (@length str) (divi_data three_token_section) = [3%nat]) /\
  extract_dividend_table document_with_three_tokens = EmptyDataFrame /\
  main document_with_three_tokens = Aborted ValueError.
Proof.
  split; [split; run|].
  apply (@widest_row_other_than_four_fails
           document_with_three_tokens three_token_section).
  - run.
  - vm_compute; discriminate.
  - vm_compute; discriminate.
Defined.

(** C2 as stated fails: the second record row of [document_with_short_row]
    splits into three tokens, the first into four; the extraction returns
    both records, the short one with a missing net dividend, and the run
    saves a report. *)
Lemma short_row_is_filled_not_rejected :
  exists section dividend_df s sde sausl anlage_kap,
    dividend_section document_with_short_row = Some section /\
    map (@length str) (divi_data section) = [4%nat; 3%nat] /\
    extract_dividend_table document_with_short_row
    = DividendTable dividend_df s sde sausl /\
    map Dividend.Nettodividende dividend_df = [fin 3681 50; NaN] /\
    main document_with_short_row = Saved anlage_kap.
Proof. do 6 eexists. conjuncts; run. Qed.

(** ** The fee *)

Lemma fee_without_match raw_text :
  re_search fee_pattern NoFlag raw_text = None ->
  extract_transaction_fee raw_text = Return zero.
Proof. unfold extract_transaction_fee. now intros ->. Qed.

Lemma fee_with_match raw_text m fee :
  re_search fee_pattern NoFlag raw_text = Some m ->
  float (replace_comma (group_at m 1)) = Some fee ->
  extract_transaction_fee raw_text = Return (fabs fee).
Proof. unfold extract_transaction_fee. now intros -> ->. Qed.

Lemma fee_with_bad_match raw_text m :
  re_search fee_pattern NoFlag raw_text = Some m ->
  float (replace_comma (group_at m 1)) = None ->
  extract_transaction_fee raw_text = Raise ValueError.
Proof. unfold extract_transaction_fee. now intros -> ->. Qed.

(** C4, on the code: the scenario text yields 12.5 and a text without the
    label yields zero, but for the fee ["1.234,56"] the pattern captures
    ["1.234,56"], the replacement makes it ["1.234.56"], [float] rejects
    it, and the extractor raises a [ValueError] where the claim has it
    return the amount. *)
Theorem fee_with_thousands_separator_raises :
  extract_transaction_fee fee_scenario = Return (fin 25 2) /\
  extract_transaction_fee (utf8 "keine Gebühren") = Return zero /\
  option_map (fun m => replace_comma (group_at m 1))
             (re_search fee_pattern NoFlag fee_with_thousands)
  = Some (utf8 "1.234.56") /\
  extract_transaction_fee fee_with_thousands = Raise ValueError.
Proof. conjuncts; run. Qed.

(** C9: there is a text with the fee label, ["Transaktionsgebühren
    1.234,56 EUR"], on which the pattern matches and the conversion of the
    captured token fails; the extractor raises there and returns no
    number, neither a fee nor the zero of the default. *)
Theorem fee_extractor_is_not_total :
  exists raw_text token,
    raw_text = utf8 "Transaktionsgebühren 1.234,56 EUR" /\
    option_map (fun m => group_at m 1) (re_search fee_pattern NoFlag raw_text)
    = Some token /\
    token = utf8 "1.234,56" /\
    float (replace_comma token) = None /\
    extract_transaction_fee raw_text = Raise ValueError /\
    ~ exists fee, extract_transaction_fee raw_text = Return fee.
Proof.
  exists fee_with_thousands, (utf8 "1.234,56").
  conjuncts; try run.
  intros [fee H]. vm_compute in H. discriminate.
Qed.

(** ** A realized-gains section without rows *)

Lemma no_row_raises_KeyError raw_text section_text :
  realized_section raw_text = Some section_text ->
  rows section_text = [] ->
  extract_realized_profits_and_fees raw_text = Raise KeyError.
Proof. unfold extract_realized_profits_and_fees. now intros -> ->. Qed.

(** C10: there is a text whose realized-gains section is present and has
    no line of the row pattern; the frame built from no row has no column,
    and the extractor raises a [KeyError] there: it does not return an
    empty record sequence with six sums of zero. *)
Theorem gains_section_without_rows_raises :
  exists raw_text section_text,
    realized_section raw_text = Some section_text /\
    rows section_text = [] /\
    extract_realized_profits_and_fees raw_text = Raise KeyError /\
    main (document_without_gains ++ NL :: raw_text) = Aborted KeyError.
Proof.
  exists document_without_rows. eexists.
  conjuncts; run.
Qed.

(** ** The lines of a dividend section *)

#[local] Arguments isspace : simpl never.

Lemma split_lines_hd_tl s :
  split_lines s = hd [] (split_lines s) :: tl (split_lines s).
Proof.
  destruct s as [|c s]; simpl; auto.
  destruct (c =? NL); auto. destruct (split_lines s); auto.
Qed.

Lemma split_lines_nl c s :
  (c =? NL) = true -> split_lines (c :: s) = [] :: split_lines s.
Proof. simpl. now intros ->. Qed.

Lemma split_lines_other c s :
  (c =? NL) = false ->
  split_lines (c :: s) = (c :: hd [] (split_lines s)) :: tl (split_lines s).
Proof. simpl. intros ->. now rewrite (split_lines_hd_tl s) at 1. Qed.


Lemma nonempty_line_cons c l :
  nonempty_line (c :: l) = negb (isspace c) || nonempty_line l.
Proof. unfold nonempty_line. simpl. now destruct (isspace c). Qed.

Lemma isspace_NL c : (c =? NL) = true -> isspace c = true.
Proof. intros H. apply N.eqb_eq in H. now subst. Qed.









Lemma split_lines_nonempty s : split_lines s <> [].
Proof. rewrite split_lines_hd_tl. discriminate. Qed.

(** The last line of a trimmed text that is not empty is not empty. *)
Lemma rstrip_last_line s :
  rstrip s <> [] -> nonempty_line (last (split_lines (rstrip s)) []) = true.
Proof.
  induction s as [|c s IH]; simpl; [congruence|].
  destruct (rstrip s) as [|r0 r] eqn:Er.
  - destruct (isspace c) eqn:Hc; [congruence|]. intros _.
    destruct (c =? NL) eqn:E; [apply isspace_NL in E; congruence|].
    rewrite split_lines_other by exact E. simpl.
    rewrite nonempty_line_cons, Hc. reflexivity.
  - intros _. assert (IH' := IH ltac:(discriminate)). clear IH.
    destruct (c =? NL) eqn:E.
    + rewrite split_lines_nl by exact E.
      change (last ([] :: split_lines (r0 :: r)) [])
        with (match split_lines (r0 :: r) with
              | [] => []
              | _ :: _ => last (split_lines (r0 :: r)) []
              end).
      destruct (split_lines (r0 :: r)) eqn:El; [now apply split_lines_nonempty in El|].
      exact IH'.
    + rewrite split_lines_other by exact E.
      rewrite (split_lines_hd_tl (r0 :: r)) in IH'.
      destruct (tl (split_lines (r0 :: r))) as [|l ls].
      * simpl in *. rewrite nonempty_line_cons, IH'. apply orb_true_r.
      * exact IH'.
Qed.

(** ** Splitting a line on whitespace *)

Lemma re_compile_whitespace : re_compile "\s+" NoFlag = Some [Cls isspace OneOrMore].
Proof. reflexivity. Qed.

Lemma greedy_all A (p : char -> bool) (k : str -> option A) r s :
  forallb p s = true -> k [] = Some r -> greedy p k s = Some r.
Proof.
  intros Hs Hk. induction s as [|c s IH]; simpl; auto.
  simpl in Hs. apply andb_true_iff in Hs. destruct Hs as [Hc Hs].
  now rewrite Hc, (IH Hs).
Qed.

(** A line of whitespace only has at most two pieces. *)
Lemma re_split_blank l :
  forallb isspace l = true -> (length (re_split "\s+" l) <= 2)%nat.
Proof.
  intros H. unfold re_split. rewrite re_compile_whitespace.
  destruct l as [|c l]; [simpl; lia|].
  simpl in H. apply andb_true_iff in H. destruct H as [Hc Hl].
  cbn [length split_from search_from match_here].
  rewrite Hc.
  rewrite (@greedy_all _ isspace (fun s : str => Some (groups no_groups, s))
                       (groups no_groups, []) l Hl eq_refl).
  cbn [after before]. destruct l; simpl; lia.
Qed.

Lemma well_formed_line_tokens l :
  well_formed_line l = true ->
  exists a b q n,
    re_split "\s+" l = [a; b; q; n] /\
    parses b = true /\ parses q = true /\ parses n = true.
Proof.
  unfold well_formed_line.
  destruct (re_split "\s+" l) as [|a [|b [|q [|n [|x r]]]]]; try discriminate.
  intros H. apply andb_true_iff in H. destruct H as [H Hn].
  apply andb_true_iff in H. destruct H as [Hb Hq].
  exists a, b, q, n. auto.
Qed.

Lemma well_formed_line_nonempty l :
  well_formed_line l = true -> nonempty_line l = true.
Proof.
  intros H. destruct (well_formed_line_tokens l H) as (a & b & q & n & Hs & _).
  unfold nonempty_line. destruct (forallb isspace l) eqn:E; auto.
  apply re_split_blank in E. rewrite Hs in E. simpl in E. lia.
Qed.

(** ** A well-formed dividend section *)







Lemma length_removelast_succ A (l : list A) :
  l <> [] -> S (length (removelast l)) = length l.
Proof.
  destruct l as [|a l]; [congruence|]. intros H.
  rewrite (app_removelast_last a H) at 2. rewrite length_app. simpl. lia.
Qed.

Lemma all_lines_nonempty section :
  no_blank_line section = true ->
  filter nonempty_line (split_lines (strip section)) = split_lines (strip section).
Proof. apply forallb_filter_id. Qed.

(** Without a blank line, the record lines of a well-formed section are
    the lines the source makes records of. *)
Lemma record_lines_well_formed section :
  well_formed section = true ->
  no_blank_line section = true ->
  forallb well_formed_line (record_lines section) = true.
Proof.
  intros Hwf Hall. unfold well_formed in Hwf.
  rewrite (all_lines_nonempty section Hall) in Hwf. unfold record_lines.
  now destruct (split_lines (strip section)).
Qed.

(** The two conditions together say that the trimmed section is not
    empty and that every one of its lines but the last is a record
    line. *)
Lemma record_lines_then_total section :
  well_formed section = true /\ no_blank_line section = true <->
  strip section <> [] /\ forallb well_formed_line (record_lines section) = true.
Proof.
  split.
  - intros [Hwf Hnb]. split; [|now apply record_lines_well_formed].
    intros E. unfold no_blank_line in Hnb. rewrite E in Hnb. discriminate.
  - intros [Hne Hrec].
    assert (Hnb : no_blank_line section = true).
    { unfold no_blank_line, record_lines, strip in *.
      rewrite forallb_forall in Hrec.
      assert (Hlast := rstrip_last_line (lstrip section) Hne).
      apply forallb_forall. intros l Hl.
      rewrite (app_removelast_last [] (@split_lines_nonempty (rstrip (lstrip section))))
        in Hl.
      apply in_app_or in Hl. destruct Hl as [Hl|[<-|[]]].
      - apply well_formed_line_nonempty, Hrec, Hl.
      - exact Hlast. }
    split; [|exact Hnb].
    unfold well_formed. rewrite (all_lines_nonempty section Hnb).
    unfold record_lines in Hrec.
    destruct (split_lines (strip section)) eqn:E; [|exact Hrec].
    now destruct (@split_lines_nonempty (strip section)).
Qed.




(** ** The fuel of the searches is never used up *)

Lemma greedy_some A p (k : str -> option A) s x :
  greedy p k s = Some x ->
  exists s', (length s' <= length s)%nat /\ k s' = Some x.
Proof.
  induction s as [|c s IH]; simpl.
  - intros H. exists []. auto.
  - destruct (p c).
    + destruct (greedy p k s) as [y|] eqn:E.
      * intros [= <-]. destruct (IH eq_refl) as (s' & Hlen & Hk).
        exists s'. split; [lia|exact Hk].
      * intros H. exists (c :: s). auto.
    + intros H. exists (c :: s). auto.
Qed.

Lemma lazy_some A p (k : str -> option A) s x :
  lazy p k s = Some x ->
  exists s', (length s' <= length s)%nat /\ k s' = Some x.
Proof.
  induction s as [|c s IH]; simpl.
  - destruct (k []) eqn:E; [|discriminate]. intros [= <-]. exists []. auto.
  - destruct (k (c :: s)) eqn:E.
    + intros [= <-]. exists (c :: s). auto.
    + destruct (p c); [|discriminate]. intros H.
      destruct (IH H) as (s' & Hlen & Hk). exists s'. split; [lia|exact Hk].
Qed.

(** A match takes at least [min_length] characters. *)
Lemma match_here_length r : forall st s g rest,
  match_here r st s = Some (g, rest) ->
  (length rest + min_length r <= length s)%nat.
Proof.
  unfold min_length.
  induction r as [|n r IH]; intros st s g rest; simpl.
  - intros [= _ <-]. lia.
  - destruct n as [p [| | |]| |]; simpl.
    + destruct s as [|c s]; [discriminate|]. destruct (p c); [|discriminate].
      intros H. apply IH in H. simpl. lia.
    + intros H. apply greedy_some in H. destruct H as (s' & Hlen & H).
      apply IH in H. lia.
    + destruct s as [|c s]; [discriminate|]. destruct (p c); [|discriminate].
      intros H. apply greedy_some in H. destruct H as (s' & Hlen & H).
      apply IH in H. simpl. lia.
    + intros H. apply lazy_some in H. destruct H as (s' & Hlen & H).
      apply IH in H. lia.
    + apply IH.
    + apply IH.
Qed.

Lemma search_from_length r : forall s skipped m,
  search_from r skipped s = Some m ->
  (length (after m) + min_length r <= length s)%nat.
Proof.
  induction s as [|c s IH]; intros skipped m; simpl.
  - destruct (match_here r no_groups []) as [[g rest]|] eqn:E; [|discriminate].
    intros [= <-]. apply match_here_length in E. exact E.
  - destruct (match_here r no_groups (c :: s)) as [[g rest]|] eqn:E.
    + intros [= <-]. apply match_here_length in E. exact E.
    + intros H. apply IH in H. lia.
Qed.

Lemma findall_from_fuel r :
  (1 <= min_length r)%nat ->
  forall n m s, (length s < n)%nat -> (length s < m)%nat ->
  findall_from n r s = findall_from m r s.
Proof.
  intros Hr. induction n as [|n IH]; intros m s Hn Hm; [lia|].
  destruct m as [|m]; [lia|]. simpl.
  destruct (search_from r [] s) as [x|] eqn:E; [|reflexivity].
  apply search_from_length in E. f_equal. apply IH; lia.
Qed.

Lemma split_from_fuel r :
  (1 <= min_length r)%nat ->
  forall n m s, (length s < n)%nat -> (length s < m)%nat ->
  split_from n r s = split_from m r s.
Proof.
  intros Hr. induction n as [|n IH]; intros m s Hn Hm; [lia|].
  destruct m as [|m]; [lia|]. simpl.
  destruct (search_from r [] s) as [x|] eqn:E; [|reflexivity].
  apply search_from_length in E. f_equal. apply IH; lia.
Qed.

(** The patterns of the program are in the fragment, and a match of one of
    them is never empty. *)
Lemma patterns_compile :
  option_map min_length (re_compile dividend_pattern DOTALL) = Some 65%nat /\
  option_map min_length (re_compile section_pattern DOTALL) = Some 65%nat /\
  option_map min_length (re_compile table_pattern NoFlag) = Some 7%nat /\
  option_map min_length (re_compile fee_pattern NoFlag) = Some 24%nat /\
  option_map min_length (re_compile "\s+" NoFlag) = Some 1%nat.
Proof. conjuncts; run. Qed.

(** More fuel than [re.findall] and [re.split] are given changes nothing. *)
Lemma re_findall_fuel r s n :
  re_compile table_pattern NoFlag = Some r ->
  (length s < n)%nat -> findall_from n r s = re_findall table_pattern s.
Proof.
  intros Hr Hn. unfold re_findall. rewrite Hr.
  apply findall_from_fuel; try lia.
  destruct patterns_compile as (_ & _ & H & _). rewrite Hr in H.
  cbn [option_map] in H. injection H as H. lia.
Qed.

Lemma re_split_fuel s n :
  (length s < n)%nat ->
  split_from n [Cls isspace OneOrMore] s = re_split "\s+" s.
Proof.
  intros Hn. unfold re_split. rewrite re_compile_whitespace.
  apply split_from_fuel; [apply le_n|exact Hn|apply Nat.lt_succ_diag_r].
Qed.

(** ** The scenario of the specification *)

(** The dividend table of the scenario: two records, 100 domestic and 50
    foreign; line 37 is 26.38 and line 38 is 26.38 * 0.055 = 1.4509. *)
Example dividend_scenario :
  extract_dividend_table sample_document
  = DividendTable
      [ {| Dividend.Land := Some (utf8 "DE");
           Dividend.Bruttodividende := fin 100 1;
           Dividend.Quellensteuer := fin 2638 100;
           Dividend.Nettodividende := fin 7362 100;
           Dividend.Steuersatz := fin 2638 10000 |};
        {| Dividend.Land := Some (utf8 "US");
           Dividend.Bruttodividende := fin 50 1;
           Dividend.Quellensteuer := fin 750 100;
           Dividend.Nettodividende := fin 4250 100;
           Dividend.Steuersatz := fin 15 100 |} ]
      (fin 150 1) (fin 100 1) (fin 50 1) /\
  map (fun r => (Zeile r, Betrag_num r, Betrag r))
      (filter (fun r => text_eqb (Zeile r) (utf8 "37")
                        || text_eqb (Zeile r) (utf8 "38")) sample_report)
  = [ (utf8 "37", fin 2638 100, utf8 "26.38 EUR");
      (utf8 "38", fin 14509 10000, utf8 "1.45 EUR") ].
Proof. split; run. Qed.

(** * Further properties of the program *)

(** * More properties of the program *)

(** ** The text of the PDF *)

Lemma read_pages_app ts : forall all_text,
  read_pages (map Return ts) all_text = Return (all_text ++ concat (map or_empty ts)).
Proof.
  induction ts as [|t ts IH]; intros all_text; simpl.
  - now rewrite app_nil_r.
  - rewrite IH. now rewrite <- app_assoc.
Qed.

(** X1: when the PDF opens and every page is read, the text is the texts
    of the pages one after the other, with nothing between two pages and
    nothing for a page without text. *)
Theorem pdf_text_is_the_pages_joined (ts : list (option str)) :
  extract_text_from_pdf (Return (map Return ts)) = concat (map or_empty ts).
Proof. unfold extract_text_from_pdf. simpl. now rewrite read_pages_app. Qed.

Lemma read_pages_raises pages : forall all_text e,
  In (Raise e) pages -> exists e', read_pages pages all_text = Raise e'.
Proof.
  induction pages as [|p pages IH]; intros all_text e; simpl; [contradiction|].
  intros [->|H].
  - now exists e.
  - destruct p as [t|e0]; simpl; [|now exists e0].
    now apply IH with e.
Qed.

(** X2: when opening the PDF raises, or the extraction of any one page
    raises, the text of the pages read before is dropped: the text is
    empty and [main] ends without a report and without an exception. *)
Theorem unreadable_pdf_gives_no_report (f : pdf) :
  (exists e, f = Raise e) \/
  (exists pages e, f = Return pages /\ In (Raise e) pages) ->
  extract_text_from_pdf f = [] /\ main_pdf f = NoText.
Proof.
  intros H.
  assert (E : extract_text_from_pdf f = []).
  { unfold extract_text_from_pdf.
    destruct H as [[e ->]|(pages & e & -> & Hin)]; [reflexivity|].
    simpl. destruct (read_pages_raises pages [] e Hin) as [e' ->]. reflexivity. }
  split; [exact E|]. unfold main_pdf. now rewrite E.
Qed.

(** A full first page and a second page that cannot be read. *)
Lemma unreadable_second_page :
  extract_text_from_pdf (Return [Return (Some sample_document); Raise ValueError]) = [] /\
  main_pdf (Return [Return (Some sample_document); Raise ValueError]) = NoText.
Proof.
  apply unreadable_pdf_gives_no_report. right.
  exists [Return (Some sample_document); Raise ValueError], ValueError.
  split; [reflexivity|]. simpl. auto.
Defined.

(** ** How a run ends *)

Lemma for_each_raises A B (f : A -> outcome B) l e :
  for_each f l = Raise e -> exists a, In a l /\ f a = Raise e.
Proof.
  induction l as [|a l IH]; simpl; [discriminate|].
  destruct (f a) as [b|e0] eqn:E; simpl.
  - destruct (for_each f l) as [bs|e1]; simpl; [discriminate|].
    intros [= <-]. destruct (IH eq_refl) as (a' & Hin & Ha'). eauto.
  - intros [= <-]. eauto.
Qed.

Lemma astype_float_raises cell e : astype_float cell = Raise e -> e = ValueError.
Proof.
  destruct cell as [s|]; simpl; [|discriminate].
  destruct (float _); [discriminate|]. now intros [= <-].
Qed.

Lemma profit_row_raises row e : profit_row row = Raise e -> e = ValueError.
Proof.
  unfold profit_row. cbv zeta.
  destruct (astype_float (Some (strip (nth 2 row [])))) as [g|e0] eqn:Eg; cbn [bind].
  - destruct (astype_float (Some (strip (nth 3 row [])))) as [t|e1] eqn:Et; cbn [bind];
      [discriminate|].
    intros [= <-]. now apply astype_float_raises in Et.
  - intros [= <-]. now apply astype_float_raises in Eg.
Qed.

(** The three ways [extract_realized_profits_and_fees] ends otherwise than
    with its 7-tuple. *)
Lemma realized_None raw_text :
  extract_realized_profits_and_fees raw_text = Return None <->
  realized_section raw_text = None.
Proof.
  unfold extract_realized_profits_and_fees.
  destruct (realized_section raw_text) as [s|]; [|tauto].
  split; [|discriminate].
  destruct (rows s); [discriminate|].
  destruct (for_each profit_row _); discriminate.
Qed.

Lemma realized_KeyError raw_text :
  extract_realized_profits_and_fees raw_text = Raise KeyError <->
  exists section_text,
    realized_section raw_text = Some section_text /\ rows section_text = [].
Proof.
  unfold extract_realized_profits_and_fees.
  destruct (realized_section raw_text) as [s|].
  - destruct (rows s) as [|r rs] eqn:E.
    + split; [eauto|reflexivity].
    + split.
      * destruct (for_each profit_row (r :: rs)) as [df|e] eqn:Ef; simpl;
          [discriminate|].
        intros [= ->]. apply for_each_raises in Ef.
        destruct Ef as (a & _ & Ha). apply profit_row_raises in Ha. discriminate.
      * intros (s' & [= <-] & H). congruence.
  - split; [discriminate|]. intros (s' & H & _). discriminate.
Qed.

Lemma realized_raises raw_text e :
  extract_realized_profits_and_fees raw_text = Raise e ->
  e = KeyError \/ e = ValueError.
Proof.
  unfold extract_realized_profits_and_fees.
  destruct (realized_section raw_text) as [s|]; [|discriminate].
  destruct (rows s) as [|r rs]; [intros [= <-]; auto|].
  destruct (for_each profit_row (r :: rs)) as [df|e0] eqn:Ef; cbn [bind];
    [discriminate|].
  intros [= <-]. apply for_each_raises in Ef. destruct Ef as (a & _ & Ha).
  apply profit_row_raises in Ha. auto.
Qed.

(** X4: [main] ends in a [TypeError] exactly when the fee and the dividend
    table were extracted and the text has no realized-gains section; it
    ends in a [KeyError] exactly when they were extracted and the
    realized-gains section is there without a row. *)
Theorem cause_of_TypeError_and_KeyError (raw_text : str) :
  (main raw_text = Aborted TypeError <->
   (exists fee, extract_transaction_fee raw_text = Return fee) /\
   extract_dividend_table raw_text <> EmptyDataFrame /\
   realized_section raw_text = None) /\
  (main raw_text = Aborted KeyError <->
   (exists fee, extract_transaction_fee raw_text = Return fee) /\
   extract_dividend_table raw_text <> EmptyDataFrame /\
   exists section_text,
     realized_section raw_text = Some section_text /\ rows section_text = []).
Proof.
  rewrite <- realized_None, <- realized_KeyError.
  destruct raw_text as [|c raw_text].
  - split; (split; [discriminate|]); intros (_ & H & _); now elim H.
  - unfold main.
    destruct (extract_transaction_fee _) as [fee|e] eqn:Hfee.
    + destruct (extract_dividend_table _) as [ddf s sde sausl|].
      * destruct (extract_realized_profits_and_fees _) as [[p|]|e] eqn:Hp.
        -- split; (split; [discriminate|]); intros (_ & _ & H); discriminate.
        -- split; (split; [|intros (_ & _ & H); try discriminate; reflexivity]).
           ++ intros _. split; [eauto|]. split; [discriminate|reflexivity].
           ++ discriminate.
        -- destruct (realized_raises _ Hp) as [->| ->].
           ++ split; (split; [|intros (_ & _ & H); try discriminate; reflexivity]).
              ** discriminate.
              ** intros _. split; [eauto|]. split; [discriminate|reflexivity].
           ++ split; (split; [discriminate|]); intros (_ & _ & H); discriminate.
      * split; (split; [discriminate|]); intros (_ & H & _); now elim H.
    + apply fee_raises_ValueError in Hfee. subst e.
      split; (split; [discriminate|]); intros ([fee H] & _); discriminate.
Qed.

Lemma for_each_Forall2 A B (f : A -> outcome B) l bs :
  for_each f l = Return bs -> Forall2 (fun a b => f a = Return b) l bs.
Proof.
  revert bs. induction l as [|a l IH]; intros bs; simpl.
  - intros [= <-]. constructor.
  - destruct (f a) as [b|] eqn:E; cbn [bind]; [|discriminate].
    destruct (for_each f l) as [bs'|]; cbn [bind]; [|discriminate].
    intros [= <-]. constructor; auto.
Qed.

Lemma widest_bound data : Forall (fun r => (length r <= widest data)%nat) data.
Proof.
  induction data as [|r data IH]; simpl; constructor; [lia|].
  eapply Forall_impl; [|exact IH]. simpl. intros a Ha. lia.
Qed.

Lemma DataFrame_returns data frame :
  DataFrame data 4 = Return frame ->
  frame = map (pad 4) data /\ Forall (fun r => (length r <= 4)%nat) data.
Proof.
  unfold DataFrame. destruct data as [|r data]; [intros [= <-]; auto|].
  destruct (widest (r :: data) =? 4)%nat eqn:E; [|discriminate].
  intros [= <-]. split; [reflexivity|].
  apply Nat.eqb_eq in E. rewrite <- E. apply widest_bound.
Qed.

(** What is behind a returned table: the section, its frame and the
    records, one for each record line. *)
Lemma dividend_table_returned text df s sde sausl :
  extract_dividend_table text = DividendTable df s sde sausl ->
  exists section,
    dividend_section text = Some section /\
    Forall (fun r => (length r <= 4)%nat) (divi_data section) /\
    Forall2 (fun cells r => dividend_row cells = Return r)
            (map (pad 4) (divi_data section)) df.
Proof.
  unfold extract_dividend_table.
  destruct (dividend_section text) as [section|]; [|discriminate].
  destruct (DataFrame (divi_data section) 4) as [frame|] eqn:Ef; cbn [bind];
    [|discriminate].
  destruct (for_each dividend_row frame) as [df'|] eqn:Er; [|discriminate].
  intros [= <- _ _ _]. exists section.
  destruct (DataFrame_returns _ Ef) as [-> Hw].
  split; [reflexivity|]. split; [exact Hw|]. now apply for_each_Forall2.
Qed.

Lemma split_from_nonempty fuel r s : split_from fuel r s <> [].
Proof. destruct fuel; simpl; [|destruct (search_from r [] s)]; discriminate. Qed.

Lemma re_split_nonempty pattern s : re_split pattern s <> [].
Proof.
  unfold re_split. destruct (re_compile pattern NoFlag);
    [apply split_from_nonempty|discriminate].
Qed.

(** X6: whenever a dividend table is returned, it has exactly one record
    for each line of the trimmed section but the last, whatever the lines
    hold, and none of these lines has more than four tokens. *)
Theorem one_record_per_line_but_the_last (text : str) (dividend_df : list Dividend.row)
        (s sde sausl : pyfloat) :
  extract_dividend_table text = DividendTable dividend_df s sde sausl ->
  exists section,
    dividend_section text = Some section /\
    length dividend_df = length (record_lines section) /\
    S (length dividend_df) = length (split_lines (strip section)) /\
    Forall (fun l => (1 <= length (re_split "\s+" l) <= 4)%nat) (record_lines section).
Proof.
  intros H. destruct (dividend_table_returned _ H) as (section & Hs & Hw & Hr).
  exists section. split; [exact Hs|].
  assert (Hlen : length dividend_df = length (record_lines section)).
  { apply Forall2_length in Hr. unfold divi_data in Hr.
    now rewrite !length_map in Hr. }
  split; [exact Hlen|]. split.
  - rewrite Hlen. unfold record_lines.
    apply length_removelast_succ, split_lines_nonempty.
  - unfold divi_data in Hw. rewrite Forall_map in Hw.
    eapply Forall_impl; [|exact Hw]. simpl. intros l Hl. split; [|exact Hl].
    pose proof (re_split_nonempty "\s+" l).
    destruct (re_split "\s+" l); [congruence|simpl; lia].
Qed.

(** The table of [document_with_short_row]: two records from three lines. *)
Lemma two_records_of_the_short_row_document :
  exists section,
    dividend_section document_with_short_row = Some section /\
    2%nat = length (record_lines section) /\
    3%nat = length (split_lines (strip section)) /\
    Forall (fun l => (1 <= length (re_split "\s+" l) <= 4)%nat) (record_lines section).
Proof.
  assert (H : exists df s sde sausl,
             extract_dividend_table document_with_short_row
             = DividendTable df s sde sausl /\ length df = 2%nat).
  { do 4 eexists. split; run. }
  destruct H as (df & s & sde & sausl & H & Hlen).
  destruct (one_record_per_line_but_the_last _ H) as (section & H1 & H2 & H3 & H4).
  exists section. rewrite Hlen in H2, H3. auto.
Defined.

(** ** The tokens of a line *)

Lemma greedy_returns A (p : char -> bool) (k : str -> option A) s :
  (forall s', k s' <> None) -> greedy p k s <> None.
Proof.
  intros Hk. induction s as [|c s IH]; simpl; [apply Hk|].
  destruct (p c); [|apply Hk].
  destruct (greedy p k s); [discriminate|apply Hk].
Qed.

Lemma match_whitespace_fails c s :
  isspace c = false -> match_here [Cls isspace OneOrMore] no_groups (c :: s) = None.
Proof. simpl. now intros ->. Qed.

Lemma match_whitespace_succeeds c s :
  isspace c = true -> match_here [Cls isspace OneOrMore] no_groups (c :: s) <> None.
Proof.
  simpl. intros ->. apply greedy_returns. discriminate.
Qed.

(** What comes before the first run of whitespace holds no whitespace, and
    so does a text in which no run is found. *)
Lemma search_whitespace s : forall skipped,
  match search_from [Cls isspace OneOrMore] skipped s with
  | Some m => exists pre, before m = rev skipped ++ pre /\ no_space pre = true
  | None => no_space s = true
  end.
Proof.
  induction s as [|c s IH]; intros skipped.
  - simpl. reflexivity.
  - cbn [search_from]. destruct (isspace c) eqn:Hc.
    + pose proof (match_whitespace_succeeds c s Hc) as Hm.
      destruct (match_here [Cls isspace OneOrMore] no_groups (c :: s)) as [[g rest]|];
        [|congruence].
      exists []. cbn [before]. now rewrite app_nil_r.
    + rewrite (match_whitespace_fails c s Hc).
      specialize (IH (c :: skipped)).
      destruct (search_from [Cls isspace OneOrMore] (c :: skipped) s) as [m|].
      * destruct IH as (pre & Hb & Hpre). exists (c :: pre).
        split; [rewrite Hb; simpl; now rewrite <- app_assoc|].
        simpl. now rewrite Hc.
      * simpl. now rewrite Hc.
Qed.

Lemma split_from_no_space fuel : forall s,
  (length s < fuel)%nat ->
  Forall (fun t => no_space t = true) (split_from fuel [Cls isspace OneOrMore] s).
Proof.
  induction fuel as [|fuel IH]; intros s Hlen; [lia|].
  simpl. pose proof (search_whitespace s []) as H.
  destruct (search_from [Cls isspace OneOrMore] [] s) as [m|] eqn:E.
  - destruct H as (pre & Hb & Hpre). constructor.
    + rewrite Hb. exact Hpre.
    + apply IH. apply search_from_length in E.
      change (min_length [Cls isspace OneOrMore]) with 1%nat in E. lia.
  - constructor; [exact H|constructor].
Qed.

(** The pieces of [re.split(r'\s+', s)]: at least one, none with whitespace. *)
Lemma re_split_tokens s :
  re_split "\s+" s <> [] /\ Forall (fun t => no_space t = true) (re_split "\s+" s).
Proof.
  split; [apply re_split_nonempty|].
  unfold re_split. rewrite re_compile_whitespace.
  apply split_from_no_space. lia.
Qed.

Lemma dividend_row_returns cells r :
  dividend_row cells = Return r ->
  exists land b q n,
    cells = [land; b; q; n] /\
    Dividend.Land r = land /\
    astype_float b = Return (Dividend.Bruttodividende r) /\
    astype_float q = Return (Dividend.Quellensteuer r) /\
    astype_float n = Return (Dividend.Nettodividende r) /\
    Dividend.Steuersatz r
    = fdiv (Dividend.Quellensteuer r) (Dividend.Bruttodividende r).
Proof.
  unfold dividend_row.
  destruct cells as [|land [|b [|q [|n [|x cells]]]]]; try discriminate.
  destruct (astype_float b) as [xb|] eqn:Eb; cbn [bind]; [|discriminate].
  destruct (astype_float q) as [xq|] eqn:Eq; cbn [bind]; [|discriminate].
  destruct (astype_float n) as [xn|] eqn:En; cbn [bind]; [|discriminate].
  intros [= <-]. exists land, b, q, n. simpl. conjuncts; auto.
Qed.

Lemma Forall2_right A B (R : A -> B -> Prop) (P : B -> Prop) l l' :
  Forall2 R l l' -> (forall a b, In a l -> R a b -> P b) -> Forall P l'.
Proof.
  induction 1 as [|a b l l' Hab _ IH]; intros H; constructor.
  - apply (H a b); simpl; auto.
  - apply IH. intros a' b' Hin. apply H. simpl. auto.
Qed.

(** X7: in every returned dividend table the jurisdiction of every record
    is present, never a missing cell, and holds no whitespace: it is the
    first token of the line of the record. *)
Theorem jurisdiction_is_the_first_token (text : str) (dividend_df : list Dividend.row)
        (s sde sausl : pyfloat) :
  extract_dividend_table text = DividendTable dividend_df s sde sausl ->
  exists section,
    dividend_section text = Some section /\
    map Dividend.Land dividend_df
    = map (fun l => Some (hd [] (re_split "\s+" l))) (record_lines section) /\
    Forall (fun r => exists land,
                Dividend.Land r = Some land /\ no_space land = true) dividend_df.
Proof.
  intros H. destruct (dividend_table_returned _ H) as (section & Hs & _ & Hr).
  exists section. split; [exact Hs|]. unfold divi_data in Hr.
  rewrite map_map in Hr.
  assert (Hland : Forall2 (fun l r => Dividend.Land r = Some (hd [] (re_split "\s+" l)))
                          (record_lines section) dividend_df).
  { remember (record_lines section) as ls eqn:E. clear E H Hs.
    revert dividend_df Hr. induction ls as [|l ls IH]; intros df Hr;
      inversion Hr; subst; constructor; auto.
    destruct (dividend_row_returns _ H1) as (land & b & q & n & Hc & Hl & _).
    destruct (re_split_tokens l) as [Hne _].
    destruct (re_split "\s+" l) as [|t ts]; [congruence|].
    simpl in Hc. injection Hc as <- _. exact Hl. }
  clear H Hr. split.
  - induction Hland as [|l r ls df Hl _ IH]; [reflexivity|].
    cbn [map]. now rewrite Hl, IH.
  - induction Hland as [|l r ls df Hl _ IH]; constructor; auto.
    destruct (re_split_tokens l) as [Hne Hall].
    destruct (re_split "\s+" l) as [|t ts]; [congruence|].
    exists t. split; [exact Hl|]. now inversion Hall.
Qed.

(** The jurisdictions of the table of [sample_document]. *)
Lemma jurisdictions_of_the_sample :
  exists section,
    dividend_section sample_document = Some section /\
    [Some (utf8 "DE"); Some (utf8 "US")]
    = map (fun l => Some (hd [] (re_split "\s+" l))) (record_lines section).
Proof.
  assert (H : exists df s sde sausl,
             extract_dividend_table sample_document = DividendTable df s sde sausl /\
             map Dividend.Land df = [Some (utf8 "DE"); Some (utf8 "US")]).
  { do 4 eexists. split; run. }
  destruct H as (df & s & sde & sausl & H & Hl).
  destruct (jurisdiction_is_the_first_token _ H) as (section & H1 & H2 & _).
  exists section. rewrite Hl in H2. auto.
Defined.

(** ** What a match captures *)

Lemma fee_pattern_compiled : re_compile fee_pattern NoFlag = Some fee_regex.
Proof. reflexivity. Qed.

Lemma table_pattern_compiled : re_compile table_pattern NoFlag = Some table_regex.
Proof. reflexivity. Qed.

Lemma greedy_split A (p : char -> bool) (k : str -> option A) s x :
  greedy p k s = Some x ->
  exists taken s', s = taken ++ s' /\ forallb p taken = true /\ k s' = Some x.
Proof.
  induction s as [|c s IH]; simpl.
  - intros H. exists [], []. auto.
  - destruct (p c) eqn:Hc.
    + destruct (greedy p k s) as [y|] eqn:E.
      * intros [= <-]. destruct (IH eq_refl) as (taken & s' & -> & Ht & Hk).
        exists (c :: taken), s'. simpl. rewrite Hc, Ht. auto.
      * intros H. exists [], (c :: s). auto.
    + intros H. exists [], (c :: s). auto.
Qed.

Lemma lazy_split A (p : char -> bool) (k : str -> option A) s x :
  lazy p k s = Some x ->
  exists taken s', s = taken ++ s' /\ forallb p taken = true /\ k s' = Some x.
Proof.
  induction s as [|c s IH]; simpl.
  - destruct (k []) eqn:E; [|discriminate]. intros [= <-]. exists [], []. auto.
  - destruct (k (c :: s)) eqn:E.
    + intros [= <-]. exists [], (c :: s). auto.
    + destruct (p c) eqn:Hc; [|discriminate]. intros H.
      destruct (IH H) as (taken & s' & -> & Ht & Hk).
      exists (c :: taken), s'. simpl. rewrite Hc, Ht. auto.
Qed.

(** A pattern without a group leaves the groups as they are. *)
Lemma match_no_group r : forall st s g rest,
  no_group r = true -> match_here r st s = Some (g, rest) -> g = groups st.
Proof.
  induction r as [|n r IH]; intros st s g rest Hr; simpl.
  - now intros [= <- _].
  - simpl in Hr. destruct n as [p q| |]; try discriminate.
    destruct q.
    + destruct s as [|c s]; [discriminate|]. destruct (p c); [|discriminate].
      now apply IH.
    + intros H. apply greedy_some in H. destruct H as (s' & _ & H).
      now apply IH in H.
    + destruct s as [|c s]; [discriminate|]. destruct (p c); [|discriminate].
      intros H. apply greedy_some in H. destruct H as (s' & _ & H).
      now apply IH in H.
    + intros H. apply lazy_some in H. destruct H as (s' & _ & H).
      now apply IH in H.
Qed.

(** A text matched character by character is there. *)
Lemma match_literal l r : forall st s x,
  match_here (literal l ++ r) st s = Some x ->
  exists s', s = l ++ s' /\ match_here r st s' = Some x.
Proof.
  induction l as [|c l IH]; intros st s x; simpl.
  - intros H. now exists s.
  - destruct s as [|d s]; [discriminate|].
    destruct (c =? d) eqn:E; [|discriminate].
    apply N.eqb_eq in E. subst d. intros H.
    destruct (IH _ _ _ H) as (s' & -> & H'). now exists s'.
Qed.

Lemma firstn_taken (taken rest : str) :
  firstn (length (taken ++ rest) - length rest) (taken ++ rest) = taken.
Proof.
  rewrite length_app, Nat.add_sub. rewrite firstn_app, Nat.sub_diag. simpl.
  rewrite app_nil_r. apply firstn_all.
Qed.

(** A group of one set repeated once or more captures a text of the set
    that is not empty. *)
Lemma match_group p r st s x :
  match_here (GroupOpen :: Cls p OneOrMore :: GroupClose :: r) st s = Some x ->
  exists token s',
    s = token ++ s' /\ token <> [] /\ forallb p token = true /\
    match_here r {| opened := s; groups := groups st ++ [token] |} s' = Some x.
Proof.
  cbn [match_here]. destruct s as [|c s]; [discriminate|].
  destruct (p c) eqn:Hc; [|discriminate]. intros H.
  apply greedy_split in H. destruct H as (taken & s' & -> & Ht & H).
  exists (c :: taken), s'. split; [reflexivity|]. split; [discriminate|].
  split; [simpl; now rewrite Hc|].
  unfold close_group, open_group in H. cbn [opened groups] in H.
  change (c :: taken ++ s') with ((c :: taken) ++ s') in H.
  now rewrite firstn_taken in H.
Qed.

(** A set repeated once or more between two parts of a pattern. *)
Lemma match_repeated p r st s x :
  match_here (Cls p OneOrMore :: r) st s = Some x ->
  exists s', match_here r st s' = Some x.
Proof.
  cbn [match_here]. destruct s as [|c s]; [discriminate|].
  destruct (p c); [|discriminate]. intros H.
  apply greedy_some in H. destruct H as (s' & _ & H). eauto.
Qed.

Lemma match_lazy p r st s x :
  match_here (Cls p LazyZeroOrMore :: r) st s = Some x ->
  exists s', match_here r st s' = Some x.
Proof.
  cbn [match_here]. intros H.
  apply lazy_some in H. destruct H as (s' & _ & H). eauto.
Qed.

Lemma search_from_found r s : forall skipped m,
  search_from r skipped s = Some m ->
  exists s' rest, match_here r no_groups s' = Some (group m, rest).
Proof.
  induction s as [|c s IH]; intros skipped m; simpl.
  - destruct (match_here r no_groups []) as [[g rest]|] eqn:E; [|discriminate].
    intros [= <-]. simpl. eauto.
  - destruct (match_here r no_groups (c :: s)) as [[g rest]|] eqn:E.
    + intros [= <-]. simpl. eauto.
    + apply IH.
Qed.

(** The token the fee pattern captures: one group, not empty, of decimal
    digits, commas and periods. *)
Lemma fee_match raw_text m :
  re_search fee_pattern NoFlag raw_text = Some m ->
  group_at m 1 <> [] /\ forallb fee_set (group_at m 1) = true.
Proof.
  unfold re_search. rewrite fee_pattern_compiled. intros H.
  apply search_from_found in H. destruct H as (s & rest & H).
  unfold fee_regex in H. apply match_literal in H. destruct H as (s1 & _ & H).
  cbn [app] in H. apply match_lazy in H. destruct H as (s2 & H).
  apply match_group in H. destruct H as (token & s3 & _ & Hne & Hset & H).
  apply match_no_group in H; [|reflexivity]. cbn [groups no_groups app] in H.
  unfold group_at. rewrite H. simpl. auto.
Qed.

(** The four tokens of a row the table pattern finds. *)
Lemma table_match s skipped m :
  search_from table_regex skipped s = Some m ->
  exists t1 t2 t3 t4,
    group m = [t1; t2; t3; t4] /\
    (t1 <> [] /\ forallb name_set t1 = true) /\
    (t2 <> [] /\ forallb isin_set t2 = true) /\
    (t3 <> [] /\ forallb number_set t3 = true) /\
    (t4 <> [] /\ forallb number_set t4 = true).
Proof.
  intros H. apply search_from_found in H. destruct H as (s0 & rest & H).
  unfold table_regex in H.
  apply match_group in H. destruct H as (t1 & s1 & _ & H1 & H1' & H).
  apply match_repeated in H. destruct H as (s1' & H).
  apply match_group in H. destruct H as (t2 & s2 & _ & H2 & H2' & H).
  apply match_repeated in H. destruct H as (s2' & H).
  apply match_group in H. destruct H as (t3 & s3 & _ & H3 & H3' & H).
  apply match_repeated in H. destruct H as (s3' & H).
  apply match_group in H. destruct H as (t4 & s4 & _ & H4 & H4' & H).
  cbn [match_here groups no_groups app] in H. injection H as H _.
  exists t1, t2, t3, t4. rewrite <- H. auto 10.
Qed.

Lemma findall_from_Forall (P : list str -> Prop) r :
  (forall s skipped m, search_from r skipped s = Some m -> P (group m)) ->
  forall fuel s, Forall P (findall_from fuel r s).
Proof.
  intros H. induction fuel as [|fuel IH]; intros s; simpl; [constructor|].
  destruct (search_from r [] s) as [m|] eqn:E; constructor; eauto.
Qed.

Lemma rows_tokens section_text :
  Forall (fun row => exists t1 t2 t3 t4,
              row = [t1; t2; t3; t4] /\
              (t1 <> [] /\ forallb name_set t1 = true) /\
              (t2 <> [] /\ forallb isin_set t2 = true) /\
              (t3 <> [] /\ forallb number_set t3 = true) /\
              (t4 <> [] /\ forallb number_set t4 = true))
         (rows section_text).
Proof.
  unfold rows, re_findall. rewrite table_pattern_compiled.
  apply findall_from_Forall. apply table_match.
Qed.

(** ** Numbers without letters are finite *)

Lemma below_128 (P : char -> bool) :
  forallb P (map N.of_nat (seq 0 128)) = true -> forall c, c < 128 -> P c = true.
Proof.
  intros H c Hc. rewrite forallb_forall in H. apply H.
  rewrite <- (N2Nat.id c). apply in_map, in_seq. lia.
Qed.

Ltac chars :=
  unfold not_letter, isdigit, in_range, Pattern.union in *;
  repeat match goal with
         | H : _ |- _ =>
           progress rewrite ?orb_true_iff, ?andb_true_iff, ?negb_true_iff,
             ?orb_false_iff, ?andb_false_iff, ?negb_false_iff,
             ?N.leb_le, ?N.leb_gt, ?N.eqb_eq, ?N.eqb_neq, ?N.ltb_lt, ?N.ltb_ge in H
         end;
  rewrite ?orb_true_iff, ?andb_true_iff, ?negb_true_iff,
    ?orb_false_iff, ?andb_false_iff, ?negb_false_iff,
    ?N.leb_le, ?N.leb_gt, ?N.eqb_eq, ?N.eqb_neq, ?N.ltb_lt, ?N.ltb_ge;
  try lia.

Lemma decimal_value_bound c d : decimal_value c = Some d -> d < 10.
Proof.
  unfold decimal_value.
  destruct (find _ decimal_zeros) as [z|] eqn:E; [|discriminate].
  intros [= <-]. apply find_some in E. destruct E as [_ E]. chars.
Qed.

Lemma to_ascii_not_letter c : not_letter c = true -> not_letter (to_ascii c) = true.
Proof.
  intros H. unfold to_ascii. destruct (c <? 128); [exact H|].
  destruct (isspace c); [reflexivity|].
  destruct (decimal_value c) as [d|] eqn:E; [|reflexivity].
  apply decimal_value_bound in E. chars.
Qed.

Lemma isdecimal_not_letter c : isdecimal c = true -> not_letter c = true.
Proof.
  intros H. destruct (N.lt_ge_cases c 128) as [Hc|Hc].
  - revert H. apply (below_128 (fun c => implb (isdecimal c) (not_letter c))) in Hc;
      [|vm_compute; reflexivity].
    destruct (isdecimal c); [intros _; exact Hc|discriminate].
  - chars.
Qed.

Lemma forallb_rev A (P : A -> bool) l : forallb P (rev l) = forallb P l.
Proof.
  apply eq_true_iff_eq. rewrite !forallb_forall. split; intros H x Hx; apply H.
  - now apply in_rev in Hx.
  - now apply in_rev.
Qed.

Lemma forallb_drop_spaces P s : forallb P s = true -> forallb P (drop_spaces s) = true.
Proof.
  induction s as [|c s IH]; simpl; auto.
  intros H. destruct (ascii_space c); [|exact H].
  apply andb_true_iff in H. now apply IH.
Qed.

Lemma forallb_drop_underscores P s : forall prev b,
  drop_underscores prev s = Some b -> forallb P s = true -> forallb P b = true.
Proof.
  induction s as [|c s IH]; intros prev b; simpl.
  - destruct (prev =? 95); [discriminate|]. now intros [= <-].
  - intros H Hs. apply andb_true_iff in Hs. destruct Hs as [Hc Hs].
    destruct (c =? 95).
    + destruct (isdigit prev); [|discriminate]. now apply IH with c.
    + destruct ((prev =? 95) && negb (isdigit c)); [discriminate|].
      destruct (drop_underscores c s) as [b'|] eqn:E; [|discriminate].
      injection H as <-. simpl. rewrite Hc. now apply IH with c.
Qed.

Lemma take_sign_rest b :
  snd (take_sign b) = b \/ exists c, b = c :: snd (take_sign b).
Proof.
  destruct b as [|c b]; [now left|].
  destruct (N.eq_dec c 43) as [->|H1]; [right; now exists 43|].
  destruct (N.eq_dec c 45) as [->|H2]; [right; now exists 45|].
  left. destruct c as [|p]; [reflexivity|].
  do 6 (try destruct p as [p|p|]); try reflexivity; congruence.
Qed.

Lemma forallb_take_sign P b : forallb P b = true -> forallb P (snd (take_sign b)) = true.
Proof.
  intros H. destruct (take_sign_rest b) as [->|[c Hc]]; [exact H|].
  rewrite Hc in H. simpl in H. now apply andb_true_iff in H.
Qed.

Lemma map_lower r : forallb not_letter r = true -> map lower r = r.
Proof.
  induction r as [|c r IH]; simpl; auto.
  intros H. apply andb_true_iff in H. destruct H as [Hc Hr].
  rewrite (IH Hr). f_equal. unfold lower.
  destruct (in_range 65 90 c) eqn:E; [|reflexivity].
  unfold not_letter in Hc. now rewrite E in Hc.
Qed.

Lemma text_eqb_eq a : forall b, text_eqb a b = true -> a = b.
Proof.
  induction a as [|x a IH]; intros [|y b]; simpl; try discriminate; auto.
  intros H. apply andb_true_iff in H. destruct H as [Hx Ha].
  apply N.eqb_eq in Hx. subst y. f_equal. now apply IH.
Qed.

Lemma not_a_word r (word : string) :
  forallb not_letter r = true -> forallb not_letter (utf8 word) = false ->
  text_eqb r (utf8 word) = false.
Proof.
  intros Hr Hw. destruct (text_eqb r (utf8 word)) eqn:E; [|reflexivity].
  apply text_eqb_eq in E. congruence.
Qed.

(** [float] of a text without letters is a finite number, if it is one at
    all: [inf] and [nan] are written with letters. *)
Lemma float_finite s x :
  forallb not_letter s = true -> float s = Some x -> isfinite x = true.
Proof.
  intros Hs. unfold float.
  set (a := rev (drop_spaces (rev (drop_spaces (map to_ascii s))))).
  assert (Ha : forallb not_letter a = true).
  { unfold a. rewrite forallb_rev. apply forallb_drop_spaces.
    rewrite forallb_rev. apply forallb_drop_spaces.
    rewrite forallb_forall in *. intros c Hc.
    apply in_map_iff in Hc. destruct Hc as (c0 & <- & Hc0).
    apply to_ascii_not_letter, Hs, Hc0. }
  destruct (drop_underscores 0 a) as [b|] eqn:Eb; [|discriminate].
  assert (Hb := forallb_drop_underscores not_letter a 0 Eb Ha).
  assert (Hr := forallb_take_sign not_letter b Hb).
  destruct (take_sign b) as [neg r]. cbn [snd] in Hr.
  rewrite (map_lower r Hr).
  rewrite !(not_a_word r _ Hr) by reflexivity. cbn [orb].
  destruct (parse_decimal r) as [q|]; [|discriminate].
  intros [= <-]. now destruct neg.
Qed.

(** ** The fee is a finite number that is not negative *)

Lemma fee_set_not_letter token :
  forallb fee_set token = true -> forallb not_letter (replace_comma token) = true.
Proof.
  unfold replace_comma. rewrite !forallb_forall. intros H c Hc.
  apply in_map_iff in Hc. destruct Hc as (c0 & <- & Hc0).
  specialize (H c0 Hc0). destruct (c0 =? 44); [reflexivity|].
  unfold fee_set, Pattern.union in H. cbn [orb] in H.
  apply orb_true_iff in H. destruct H as [H|H].
  - apply orb_true_iff in H. destruct H as [H|H].
    + now apply isdecimal_not_letter.
    + chars.
  - chars.
Qed.

(** X11: whenever the fee extractor returns, what it returns is a number,
    never a NaN, and it is not negative: the zero of the default, or the
    absolute value of the number after the label. *)
Theorem fee_is_a_number_and_not_negative (raw_text : str) (fee : pyfloat) :
  extract_transaction_fee raw_text = Return fee ->
  isnan fee = false /\ fle zero fee = true.
Proof.
  unfold extract_transaction_fee.
  destruct (re_search fee_pattern NoFlag raw_text) as [m|] eqn:Em.
  - destruct (fee_match _ Em) as [_ Hset].
    destruct (float (replace_comma (group_at m 1))) as [v|] eqn:Ev; [|discriminate].
    apply float_finite in Ev; [|now apply fee_set_not_letter].
    intros [= <-]. destruct v as [q| | |]; try discriminate.
    split; [reflexivity|]. simpl. rewrite negb_involutive.
    apply Qle_bool_iff. rewrite Qred_correct. apply Qabs_nonneg.
  - intros [= <-]. split; reflexivity.
Qed.

(** The fee of the scenario. *)
Lemma fee_of_the_scenario_is_not_negative :
  extract_transaction_fee fee_scenario = Return (fin 25 2) /\
  isnan (fin 25 2) = false /\ fle zero (fin 25 2) = true.
Proof.
  assert (H : extract_transaction_fee fee_scenario = Return (fin 25 2)) by run.
  split; [exact H|exact (fee_is_a_number_and_not_negative _ H)].
Defined.

(** ** The rows of the realized gains and losses *)

Lemma forallb_lstrip P s : forallb P s = true -> forallb P (lstrip s) = true.
Proof.
  induction s as [|c s IH]; simpl; auto.
  intros H. destruct (isspace c); [|exact H].
  apply andb_true_iff in H. now apply IH.
Qed.

Lemma forallb_rstrip P s : forallb P s = true -> forallb P (rstrip s) = true.
Proof.
  induction s as [|c s IH]; simpl; auto.
  intros H. apply andb_true_iff in H. destruct H as [Hc Hs].
  specialize (IH Hs). destruct (rstrip s) as [|r0 r].
  - destruct (isspace c); simpl; [reflexivity|now rewrite Hc].
  - simpl in *. now rewrite Hc.
Qed.

Lemma forallb_strip P s : forallb P s = true -> forallb P (strip s) = true.
Proof. intros H. now apply forallb_rstrip, forallb_lstrip. Qed.

Lemma lstrip_no_space s : no_space s = true -> lstrip s = s.
Proof.
  destruct s as [|c s]; simpl; auto.
  intros H. apply andb_true_iff in H. destruct H as [Hc _].
  apply negb_true_iff in Hc. now rewrite Hc.
Qed.

Lemma rstrip_no_space s : no_space s = true -> rstrip s = s.
Proof.
  induction s as [|c s IH]; simpl; auto.
  intros H. apply andb_true_iff in H. destruct H as [Hc Hs].
  apply negb_true_iff in Hc. rewrite (IH Hs), Hc. now destruct s.
Qed.

Lemma strip_no_space s : no_space s = true -> strip s = s.
Proof.
  intros H. unfold strip. rewrite (lstrip_no_space s H). now apply rstrip_no_space.
Qed.

Lemma isin_set_no_space t : forallb isin_set t = true -> no_space t = true.
Proof.
  unfold no_space. rewrite !forallb_forall. intros H c Hc.
  specialize (H c Hc). apply negb_true_iff.
  assert (Hlt : c < 128) by (unfold isin_set in H; cbn [orb] in H; chars).
  apply (below_128 (fun c => implb (isin_set c) (negb (isspace c)))) in Hlt;
    [|vm_compute; reflexivity].
  rewrite H in Hlt. simpl in Hlt. now apply negb_true_iff in Hlt.
Qed.

Lemma number_set_not_letter t :
  forallb number_set t = true -> forallb not_letter (replace_comma (strip t)) = true.
Proof.
  intros H. apply (forallb_strip number_set) in H.
  unfold replace_comma. rewrite !forallb_forall in *. intros c Hc.
  apply in_map_iff in Hc. destruct Hc as (c0 & <- & Hc0).
  specialize (H c0 Hc0). destruct (c0 =? 44); [reflexivity|].
  unfold number_set in H. cbn [orb] in H. chars.
Qed.

Lemma number_is_finite t x :
  forallb number_set t = true ->
  astype_float (Some (strip t)) = Return x -> isfinite x = true.
Proof.
  intros Ht. unfold astype_float.
  destruct (float (replace_comma (strip t))) as [v|] eqn:E; [|discriminate].
  intros [= <-]. apply float_finite in E; [exact E|].
  now apply number_set_not_letter.
Qed.

(** What [profit_row] makes of a row the table pattern found. *)
Lemma profit_row_returns row r :
  (exists t1 t2 t3 t4,
      row = [t1; t2; t3; t4] /\
      (t1 <> [] /\ forallb name_set t1 = true) /\
      (t2 <> [] /\ forallb isin_set t2 = true) /\
      (t3 <> [] /\ forallb number_set t3 = true) /\
      (t4 <> [] /\ forallb number_set t4 = true)) ->
  profit_row row = Return r ->
  (Profit.ISIN r <> [] /\ forallb isin_set (Profit.ISIN r) = true /\
   Profit.Land r = firstn 2 (Profit.ISIN r)) /\
  (isfinite (Profit.Realisierte_Gewinne_Verluste r) = true /\
   isfinite (Profit.Transaktionsgebuehr r) = true).
Proof.
  intros (t1 & t2 & t3 & t4 & -> & _ & [H2 H2'] & [_ H3] & [_ H4]).
  unfold profit_row. cbv zeta. cbn [nth].
  destruct (astype_float (Some (strip t3))) as [g|] eqn:Eg; cbn [bind]; [|discriminate].
  destruct (astype_float (Some (strip t4))) as [f|] eqn:Ef; cbn [bind]; [|discriminate].
  intros [= <-]. cbn [Profit.ISIN Profit.Land Profit.Realisierte_Gewinne_Verluste
                       Profit.Transaktionsgebuehr].
  rewrite (strip_no_space t2 (isin_set_no_space t2 H2')).
  split; [auto|]. split; [now apply number_is_finite with t3|].
  now apply number_is_finite with t4.
Qed.

(** What is behind a returned 7-tuple: the section, its rows, and one
    record for each row. *)
Lemma realized_returned raw_text p :
  extract_realized_profits_and_fees raw_text = Return (Some p) ->
  exists section_text,
    realized_section raw_text = Some section_text /\
    rows section_text <> [] /\
    Forall2 (fun row r => profit_row row = Return r) (rows section_text) (profits_df p).
Proof.
  unfold extract_realized_profits_and_fees.
  destruct (realized_section raw_text) as [s|]; [|discriminate].
  destruct (rows s) as [|row data] eqn:E; [discriminate|].
  destruct (for_each profit_row (row :: data)) as [df|] eqn:Ef; cbn [bind];
    [|discriminate].
  intros [= <-]. exists s. rewrite E. split; [reflexivity|]. split; [discriminate|].
  now apply for_each_Forall2.
Qed.

Lemma Forall2_Forall_left A B (R : A -> B -> Prop) (P : A -> Prop) (Q : B -> Prop) l l' :
  Forall2 R l l' -> Forall P l -> (forall a b, P a -> R a b -> Q b) -> Forall Q l'.
Proof.
  induction 1 as [|a b l l' Hab _ IH]; intros Hl H; constructor;
    inversion Hl; subst; eauto.
Qed.

(** X12: whenever the realized-gains extractor returns its 7-tuple, the
    frame has a record for every row the pattern found, at least one; the
    ISIN of every record is a non-empty text of capital letters and
    digits, and its country is the first two characters of the ISIN. *)
Theorem every_record_has_an_ISIN (raw_text : str) (p : profits) :
  extract_realized_profits_and_fees raw_text = Return (Some p) ->
  profits_df p <> [] /\
  (exists section_text,
      realized_section raw_text = Some section_text /\
      length (profits_df p) = length (rows section_text)) /\
  Forall (fun r =>
            Profit.ISIN r <> [] /\
            forallb (fun c => in_range 65 90 c || in_range 48 57 c) (Profit.ISIN r)
            = true /\
            Profit.Land r = firstn 2 (Profit.ISIN r))
         (profits_df p).
Proof.
  intros H. destruct (realized_returned _ H) as (s & Hs & Hne & Hr).
  split; [|split].
  - intros E. rewrite E in Hr. inversion Hr. congruence.
  - exists s. split; [exact Hs|]. symmetry. now apply Forall2_length in Hr.
  - eapply Forall2_Forall_left; [exact Hr|apply rows_tokens|].
    intros row r Hrow Hret. cbv beta.
    now destruct (profit_row_returns Hrow Hret) as [H1 _].
Qed.

(** The two records of [sample_document]. *)
Lemma ISINs_of_the_sample :
  exists p,
    extract_realized_profits_and_fees sample_document = Return (Some p) /\
    map Profit.ISIN (profits_df p) = [utf8 "DE0007164600"; utf8 "US0378331005"] /\
    map Profit.Land (profits_df p) = [utf8 "DE"; utf8 "US"] /\
    Forall (fun r =>
              Profit.ISIN r <> [] /\
              forallb (fun c => in_range 65 90 c || in_range 48 57 c) (Profit.ISIN r)
              = true /\
              Profit.Land r = firstn 2 (Profit.ISIN r))
           (profits_df p).
Proof.
  assert (H : exists p,
             extract_realized_profits_and_fees sample_document = Return (Some p) /\
             map Profit.ISIN (profits_df p)
             = [utf8 "DE0007164600"; utf8 "US0378331005"] /\
             map Profit.Land (profits_df p) = [utf8 "DE"; utf8 "US"]).
  { eexists. conjuncts; run. }
  destruct H as (p & H & H1 & H2). exists p. conjuncts; auto.
  now destruct (every_record_has_an_ISIN _ H) as (_ & _ & H3).
Defined.

(** ** The general data *)

Lemma general_pattern_compiled :
  re_compile_counts general_pattern NoFlag = Some general_regex.
Proof. reflexivity. Qed.

Lemma match_once p r st s x :
  match_here (Cls p Once :: r) st s = Some x ->
  exists c s', s = c :: s' /\ p c = true /\ match_here r st s' = Some x.
Proof.
  cbn [match_here]. destruct s as [|c s]; [discriminate|].
  destruct (p c) eqn:Hc; [|discriminate]. intros H. now exists c, s.
Qed.

Lemma match_repeated_split p r st s x :
  match_here (Cls p OneOrMore :: r) st s = Some x ->
  exists token s',
    s = token ++ s' /\ token <> [] /\ forallb p token = true /\
    match_here r st s' = Some x.
Proof.
  cbn [match_here]. destruct s as [|c s]; [discriminate|].
  destruct (p c) eqn:Hc; [|discriminate]. intros H.
  apply greedy_split in H. destruct H as (taken & s' & -> & Ht & H).
  exists (c :: taken), s'. split; [reflexivity|]. split; [discriminate|].
  split; [simpl; now rewrite Hc|exact H].
Qed.

(** A group of one set repeated lazily captures a text of the set. *)
Lemma match_lazy_group p r st s x :
  match_here (GroupOpen :: Cls p LazyZeroOrMore :: GroupClose :: r) st s = Some x ->
  exists token s',
    s = token ++ s' /\ forallb p token = true /\
    match_here r {| opened := s; groups := groups st ++ [token] |} s' = Some x.
Proof.
  cbn [match_here]. intros H.
  apply lazy_split in H. destruct H as (taken & s' & -> & Ht & H).
  exists taken, s'. split; [reflexivity|]. split; [exact Ht|].
  unfold close_group, open_group in H. cbn [opened groups] in H.
  now rewrite firstn_taken in H.
Qed.

(** The two groups of a match of the general pattern: any text, and an
    amount. *)
Lemma general_match s skipped m :
  search_from general_regex skipped s = Some m ->
  exists description value, group m = [description; value] /\ amount_EUR value.
Proof.
  intros H. apply search_from_found in H. destruct H as (s0 & rest & H).
  unfold general_regex in H. cbn [app] in H.
  apply match_lazy_group in H. destruct H as (d & s1 & _ & _ & H).
  apply match_once in H. destruct H as (c & s2 & _ & _ & H).
  cbn [match_here] in H. fold match_here in H.
  change (match_here
            (Cls isdecimal OneOrMore :: Cls (N.eqb 44) Once :: Cls isdecimal Once
               :: Cls isdecimal Once :: literal (utf8 " EUR") ++ [GroupClose])
            (open_group {| opened := d ++ s1; groups := groups no_groups ++ [d] |} s2)
            s2 = Some (group m, rest)) in H.
  apply match_repeated_split in H. destruct H as (ds & s3 & E2 & Hne & Hds & H).
  apply match_once in H. destruct H as (c1 & s4 & E3 & Hc1 & H).
  apply match_once in H. destruct H as (a & s5 & E4 & Ha & H).
  apply match_once in H. destruct H as (b & s6 & E5 & Hb & H).
  apply match_literal in H. destruct H as (s7 & E6 & H).
  apply N.eqb_eq in Hc1. subst c1 s6 s5 s4 s3.
  cbn [match_here close_group open_group opened groups no_groups app] in H.
  injection H as H _.
  assert (E : s2 = (ds ++ 44 :: a :: b :: utf8 " EUR") ++ s7).
  { rewrite E2, <- app_assoc. reflexivity. }
  rewrite E in H. rewrite firstn_taken in H.
  exists d, (ds ++ 44 :: a :: b :: utf8 " EUR"). split; [now rewrite <- H|].
  exists ds, a, b. auto.
Qed.

(** *** [str.strip] and what it leaves *)

Lemma lstrip_head s :
  match lstrip s with c :: _ => isspace c = false | [] => True end.
Proof.
  induction s as [|c s IH]; simpl; auto.
  destruct (isspace c) eqn:E; auto.
Qed.

Lemma rstrip_head s :
  match s with c :: _ => isspace c = false | [] => True end ->
  match rstrip s with c :: _ => isspace c = false | [] => True end.
Proof.
  destruct s as [|c s]; simpl; auto.
  intros Hc. destruct (rstrip s); [now rewrite Hc|exact Hc].
Qed.

Lemma lstrip_clean s :
  match s with c :: _ => isspace c = false | [] => True end -> lstrip s = s.
Proof. destruct s as [|c s]; simpl; auto. now intros ->. Qed.

Lemma rstrip_idempotent s : rstrip (rstrip s) = rstrip s.
Proof.
  induction s as [|c s IH]; simpl; auto.
  destruct (rstrip s) as [|r0 r] eqn:E.
  - destruct (isspace c) eqn:Hc; simpl; [reflexivity|now rewrite Hc].
  - change (rstrip (c :: r0 :: r))
      with (match rstrip (r0 :: r) with
            | [] => if isspace c then [] else [c]
            | x :: l => c :: x :: l
            end).
    now rewrite IH.
Qed.

(** [strip] leaves nothing to strip. *)
Lemma strip_idempotent s : strip (strip s) = strip s.
Proof.
  unfold strip at 1. rewrite lstrip_clean.
  - unfold strip. apply rstrip_idempotent.
  - unfold strip. apply rstrip_head, lstrip_head.
Qed.

Lemma rstrip_ends s c : isspace c = false -> rstrip (s ++ [c]) = s ++ [c].
Proof.
  intros Hc. induction s as [|x s IH]; simpl; [now rewrite Hc|].
  rewrite IH. now destruct (s ++ [c]) eqn:E; [destruct s; discriminate|].
Qed.

Lemma isdecimal_not_space c : isdecimal c = true -> isspace c = false.
Proof.
  intros H. destruct (isspace c) eqn:E; [|reflexivity].
  unfold isspace in E. apply existsb_exists in E. destruct E as (w & Hw & Hcw).
  apply N.eqb_eq in Hcw. subst w.
  assert (Hall : forallb (fun w => negb (isdecimal w)) whitespace_points = true)
    by (vm_compute; reflexivity).
  rewrite forallb_forall in Hall. specialize (Hall c Hw).
  now rewrite H in Hall.
Qed.

Lemma strip_amount value : amount_EUR value -> strip value = value.
Proof.
  intros (ds & a & b & -> & Hne & Hds & _ & _).
  assert (E : ds ++ 44 :: a :: b :: utf8 " EUR" = (ds ++ [44; a; b; 32; 69; 85]) ++ [82]).
  { rewrite <- app_assoc. reflexivity. }
  unfold strip. rewrite lstrip_clean.
  - rewrite E. now apply rstrip_ends.
  - destruct ds as [|d ds]; [congruence|]. simpl in *.
    apply andb_true_iff in Hds. destruct Hds as [Hd _].
    now apply isdecimal_not_space.
Qed.

(** X13: every entry [extract_general_data] returns is a pair of a
    description and an amount; the amount is made of decimal digits, a
    comma, exactly two decimal digits and [" EUR"], and the description
    has no whitespace at either end. *)
Theorem general_data_entries_are_amounts (text : str) :
  Forall (fun entry => exists description value,
              entry = [description; value] /\
              amount_EUR value /\ strip description = description)
         (extract_general_data text).
Proof.
  unfold extract_general_data. apply Forall_flat_map, Forall_forall.
  intros line _. apply Forall_map. unfold general_matches.
  rewrite general_pattern_compiled.
  apply findall_from_Forall. intros s skipped m Hm.
  destruct (general_match _ _ Hm) as (d & v & -> & Hv). cbn [nth].
  exists (strip d), (strip v). rewrite (strip_amount Hv).
  split; [reflexivity|]. split; [exact Hv|apply strip_idempotent].
Qed.

Lemma split_lines_app a b :
  split_lines (a ++ NL :: b) = split_lines a ++ split_lines b.
Proof.
  induction a as [|c a IH]; [reflexivity|].
  cbn [app]. destruct (c =? NL) eqn:E.
  - rewrite !split_lines_nl by exact E. now rewrite IH.
  - rewrite !split_lines_other by exact E. rewrite IH.
    rewrite (split_lines_hd_tl a) at 1 2. reflexivity.
Qed.

(** X14: the entries of a text are the entries of its lines, in the order
    of the lines: for two texts joined by a line feed they are the entries
    of the first followed by the entries of the second.  An amount whose
    text is broken by a line feed is not found. *)
Theorem general_data_is_found_line_by_line (a b : str) :
  extract_general_data (a ++ NL :: b)
  = extract_general_data a ++ extract_general_data b.
Proof.
  unfold extract_general_data. now rewrite split_lines_app, flat_map_app.
Qed.

(** The entries of [general_document]: the amount with the thousands
    separator is not one. *)
Example general_data_of_a_statement :
  extract_general_data general_document
  = [ [utf8 "Ausschüttungen"; utf8 "12,34 EUR"]; [utf8 "Zinsen"; utf8 "0,50 EUR"] ].
Proof. run. Qed.

(** ** The two sections *)

Lemma dividend_pattern_compiled : re_compile dividend_pattern DOTALL = Some dividend_regex.
Proof. reflexivity. Qed.

Lemma section_pattern_compiled : re_compile section_pattern DOTALL = Some section_regex.
Proof. reflexivity. Qed.

Lemma search_from_split r s : forall skipped m,
  search_from r skipped s = Some m ->
  exists pre s',
    s = pre ++ s' /\ match_here r no_groups s' = Some (group m, after m).
Proof.
  induction s as [|c s IH]; intros skipped m; simpl.
  - destruct (match_here r no_groups []) as [[g rest]|] eqn:E; [|discriminate].
    intros [= <-]. exists [], []. auto.
  - destruct (match_here r no_groups (c :: s)) as [[g rest]|] eqn:E.
    + intros [= <-]. exists [], (c :: s). auto.
    + intros H. destruct (IH _ _ H) as (pre & s' & -> & H').
      exists (c :: pre), s'. auto.
Qed.

Lemma match_literal_there l r st z :
  match_here (literal l ++ r) st (l ++ z) = match_here r st z.
Proof.
  induction l as [|c l IH]; [reflexivity|].
  cbn [literal map app match_here]. rewrite N.eqb_refl. exact IH.
Qed.

(** A lazy repetition stops at the first place where the rest matches. *)
Lemma lazy_first A (p : char -> bool) (k : str -> option A) s x :
  lazy p k s = Some x ->
  exists taken s',
    s = taken ++ s' /\ k s' = Some x /\
    forall t1 t2, taken = t1 ++ t2 -> t2 <> [] -> k (t2 ++ s') = None.
Proof.
  induction s as [|c s IH]; simpl.
  - destruct (k []) eqn:E; [|discriminate]. intros [= <-]. exists [], [].
    split; [reflexivity|]. split; [exact E|].
    intros t1 t2 Ht. symmetry in Ht. apply app_eq_nil in Ht. tauto.
  - destruct (k (c :: s)) eqn:E.
    + intros [= <-]. exists [], (c :: s).
      split; [reflexivity|]. split; [exact E|].
      intros t1 t2 Ht. symmetry in Ht. apply app_eq_nil in Ht. tauto.
    + destruct (p c); [|discriminate]. intros H.
      destruct (IH H) as (taken & s' & -> & Hk & Hfirst).
      exists (c :: taken), s'. split; [reflexivity|]. split; [exact Hk|].
      intros [|d t1] t2 Ht Hne.
      * simpl in Ht. subst t2. exact E.
      * simpl in Ht. injection Ht as _ Ht. now apply Hfirst with t1.
Qed.

(** The group of a lazy repetition captures the text up to the first
    place where the rest of the pattern matches. *)
Lemma match_lazy_group_first p r st s x :
  match_here (GroupOpen :: Cls p LazyZeroOrMore :: GroupClose :: r) st s = Some x ->
  exists token s',
    s = token ++ s' /\
    match_here r {| opened := s; groups := groups st ++ [token] |} s' = Some x /\
    forall t1 t2, token = t1 ++ t2 -> t2 <> [] ->
      match_here r {| opened := s; groups := groups st ++ [t1] |} (t2 ++ s') = None.
Proof.
  cbn [match_here]. intros H.
  apply lazy_first in H. destruct H as (taken & s' & -> & H & Hfirst).
  exists taken, s'. split; [reflexivity|].
  unfold close_group, open_group in *. cbn [opened groups] in *.
  split; [now rewrite firstn_taken in H|].
  intros t1 t2 -> Hne. specialize (Hfirst t1 t2 eq_refl Hne).
  rewrite <- app_assoc in Hfirst. rewrite <- app_assoc.
  now rewrite firstn_taken in Hfirst.
Qed.

(** A pattern [start(.*?)stop]: the group is the text between the first
    [start] that is followed by a [stop] and the first [stop] after it. *)
Lemma search_between (start stop : str) (p : char -> bool) text m :
  search_from
    (literal start ++ [GroupOpen; Cls p LazyZeroOrMore; GroupClose] ++ literal stop)
    [] text = Some m ->
  (exists before after,
      text = before ++ start ++ group_at m 1 ++ stop ++ after) /\
  (stop <> [] -> ~ occurs stop (group_at m 1)).
Proof.
  intros E. apply search_from_split in E.
  destruct E as (pre & s0 & -> & H).
  apply match_literal in H.
  destruct H as (s1 & -> & H). cbn [app] in H.
  apply match_lazy_group_first in H. destruct H as (token & s2 & -> & H & Hfirst).
  assert (Hend := H). rewrite <- (app_nil_r (literal stop)) in Hend.
  apply match_literal in Hend. destruct Hend as (s3 & -> & Hend).
  cbn [match_here groups no_groups app] in Hend. injection Hend as Hg _.
  unfold group_at. rewrite <- Hg. cbn [nth Nat.sub].
  split; [now exists pre, s3|].
  intros Hstop (u & w & ->).
  assert (Hne : stop ++ w <> []).
  { intros Hnil. apply app_eq_nil in Hnil. tauto. }
  specialize (Hfirst u (stop ++ w) eq_refl Hne).
  rewrite <- (app_nil_r (literal stop)) in Hfirst.
  rewrite <- (app_assoc stop w) in Hfirst.
  rewrite match_literal_there in Hfirst. discriminate.
Qed.

(** The same for [(start)(.*?)(stop)], whose second group is the text
    between the anchors. *)
Lemma search_between_groups (start stop : str) (p : char -> bool) text m :
  search_from
    (GroupOpen :: literal start
       ++ [GroupClose; GroupOpen; Cls p LazyZeroOrMore; GroupClose; GroupOpen]
       ++ literal stop ++ [GroupClose])
    [] text = Some m ->
  (exists before after,
      text = before ++ start ++ group_at m 2 ++ stop ++ after) /\
  (stop <> [] -> ~ occurs stop (group_at m 2)).
Proof.
  intros E. apply search_from_split in E.
  destruct E as (pre & s0 & -> & H).
  cbn [match_here] in H. fold match_here in H.
  apply match_literal in H. destruct H as (s1 & -> & H).
  cbn [app] in H.
  change (match_here
            (GroupOpen :: Cls p LazyZeroOrMore
               :: GroupClose :: GroupOpen :: literal stop ++ [GroupClose])
            (close_group (open_group no_groups (start ++ s1)) s1) s1
          = Some (group m, after m)) in H.
  apply match_lazy_group_first in H. destruct H as (token & s2 & -> & H & Hfirst).
  assert (Hend := H). cbn [match_here] in Hend. fold match_here in Hend.
  apply match_literal in Hend. destruct Hend as (s3 & -> & Hend).
  cbn [match_here groups close_group open_group opened no_groups app] in Hend.
  injection Hend as Hg _.
  unfold group_at. rewrite <- Hg. cbn [nth Nat.sub].
  split; [now exists pre, s3|].
  intros Hstop (u & w & ->).
  assert (Hne : stop ++ w <> []).
  { intros Hnil. apply app_eq_nil in Hnil. tauto. }
  specialize (Hfirst u (stop ++ w) eq_refl Hne).
  cbn [match_here] in Hfirst. fold match_here in Hfirst.
  rewrite <- (app_assoc stop w) in Hfirst.
  rewrite match_literal_there in Hfirst. discriminate.
Qed.

Lemma dividend_regex_eq :
  dividend_regex
  = literal dividend_start
      ++ [GroupOpen; Cls (fun x => true || negb (x =? NL)) LazyZeroOrMore; GroupClose]
      ++ literal dividend_end.
Proof. reflexivity. Qed.

Lemma section_regex_eq :
  section_regex
  = GroupOpen :: literal realized_start
      ++ [ GroupClose;
           GroupOpen; Cls (fun x => true || negb (x =? NL)) LazyZeroOrMore; GroupClose;
           GroupOpen ]
      ++ literal realized_end ++ [GroupClose].
Proof. reflexivity. Qed.

Lemma dividend_end_nonempty : dividend_end <> [].
Proof. unfold dividend_end. discriminate. Qed.

Lemma realized_end_nonempty : realized_end <> [].
Proof. intros H. apply (f_equal (@List.length char)) in H. vm_compute in H. discriminate. Qed.

(** X15: the dividend section, when there is one, is the text between the
    start anchor with its line feed and an end anchor with its line feed
    before it, and the end anchor does not occur inside the section: the
    section ends at the first end anchor. *)
Theorem dividend_section_is_between_the_anchors (text section : str) :
  dividend_section text = Some section ->
  (exists before after,
      text = before ++ dividend_start ++ section ++ dividend_end ++ after) /\
  ~ occurs dividend_end section.
Proof.
  unfold dividend_section, re_search. rewrite dividend_pattern_compiled.
  destruct (search_from dividend_regex [] text) as [m|] eqn:E; [|discriminate].
  intros [= <-]. rewrite dividend_regex_eq in E. apply search_between in E. destruct E as [H1 H2].
  split; [exact H1|exact (H2 dividend_end_nonempty)].
Qed.

(** The section of [sample_document]. *)
Lemma dividend_section_of_the_sample :
  dividend_section sample_document = Some sample_section /\
  (exists before after,
      sample_document
      = before ++ dividend_start ++ sample_section ++ dividend_end ++ after) /\
  ~ occurs dividend_end sample_section.
Proof.
  assert (H : dividend_section sample_document = Some sample_section) by run.
  split; [exact H|exact (dividend_section_is_between_the_anchors _ H)].
Defined.

(** X16: the realized-gains section, when there is one, is the text
    between the start anchor and an end anchor, and the end anchor does
    not occur inside the section: the section ends at the first end
    anchor. *)
Theorem realized_section_is_between_the_anchors (raw_text section_text : str) :
  realized_section raw_text = Some section_text ->
  (exists before after,
      raw_text = before ++ realized_start ++ section_text ++ realized_end ++ after) /\
  ~ occurs realized_end section_text.
Proof.
  unfold realized_section, re_search. rewrite section_pattern_compiled.
  destruct (search_from section_regex [] raw_text) as [m|] eqn:E; [|discriminate].
  intros [= <-]. rewrite section_regex_eq in E.
  apply search_between_groups in E. destruct E as [H1 H2].
  split; [exact H1|exact (H2 realized_end_nonempty)].
Qed.

(** The section of [document_without_rows]. *)
Lemma realized_section_of_a_document :
  realized_section document_without_rows = Some (NL :: utf8 "keine Positionen" ++ [NL]) /\
  (exists before after,
      document_without_rows
      = before ++ realized_start ++ (NL :: utf8 "keine Positionen" ++ [NL])
               ++ realized_end ++ after) /\
  ~ occurs realized_end (NL :: utf8 "keine Positionen" ++ [NL]).
Proof.
  assert (H : realized_section document_without_rows
              = Some (NL :: utf8 "keine Positionen" ++ [NL])) by run.
  split; [exact H|exact (realized_section_is_between_the_anchors _ H)].
Defined.

(** ** Edge cases of the run *)

Lemma split_lines_one_line s : ~ In NL s -> split_lines s = [s].
Proof.
  induction s as [|c s IH]; [reflexivity|]. intros H.
  destruct (c =? NL) eqn:E.
  - apply N.eqb_eq in E. subst c. exfalso. apply H. now left.
  - rewrite split_lines_other by exact E.
    rewrite IH; [reflexivity|]. intros Hin. apply H. now right.
Qed.

(** X17: a dividend section that is one line once trimmed (the TOTAL line
    alone, or nothing) gives the table without rows and three sums of
    zero; unlike the realized gains without rows, this is no error. *)
Theorem single_line_section_gives_the_empty_table (text section : str) :
  dividend_section text = Some section ->
  ~ In NL (strip section) ->
  extract_dividend_table text = DividendTable [] zero zero zero.
Proof.
  intros Hs Hline. unfold extract_dividend_table. rewrite Hs.
  unfold divi_data, record_lines. rewrite split_lines_one_line by exact Hline. reflexivity.
Qed.

(** The table of [document_with_total_only]. *)
Lemma empty_table_of_the_total_line :
  dividend_section document_with_total_only = Some (utf8 "TOTAL") /\
  ~ In NL (strip (utf8 "TOTAL")) /\
  extract_dividend_table document_with_total_only = DividendTable [] zero zero zero.
Proof.
  assert (H : dividend_section document_with_total_only = Some (utf8 "TOTAL")) by run.
  assert (H' : ~ In NL (strip (utf8 "TOTAL"))).
  { vm_compute. intros F. repeat (destruct F as [F|F]; [discriminate F|]). exact F. }
  split; [exact H|]. split; [exact H'|].
  exact (single_line_section_gives_the_empty_table _ H H').
Defined.

Lemma concat_nil A (l : list (list A)) : concat l = [] <-> Forall (fun x => x = []) l.
Proof.
  induction l as [|x l IH]; simpl.
  - split; auto.
  - split.
    + intros H. apply app_eq_nil in H. destruct H as [-> H].
      constructor; [reflexivity|now apply IH].
    + intros H. inversion H as [|? ? -> H']. now apply IH.
Qed.

(** X18: for a PDF that opens and whose pages are all read, [main] ends
    without a report and without an exception exactly when no page has
    any text, as for a scanned document. *)
Theorem no_report_iff_no_page_has_text (ts : list (option str)) :
  main_pdf (Return (map Return ts)) = NoText <-> Forall (fun t => or_empty t = []) ts.
Proof.
  unfold main_pdf, extract_text_from_pdf. cbn [bind].
  rewrite read_pages_app. cbn [app].
  rewrite Forall_forall. split.
  - intros H t Hin.
    assert (E : concat (map or_empty ts) = []).
    { unfold main in H. destruct (concat (map or_empty ts)) as [|c s]; [reflexivity|].
      destruct (extract_transaction_fee _); [|discriminate].
      destruct (extract_dividend_table _); [|discriminate].
      destruct (extract_realized_profits_and_fees _) as [[p|]|]; discriminate. }
    apply concat_nil in E. rewrite Forall_forall in E.
    apply E. now apply in_map.
  - intros H.
    assert (E : concat (map or_empty ts) = []).
    { apply concat_nil. rewrite Forall_forall. intros x Hx.
      apply in_map_iff in Hx. destruct Hx as (t & <- & Hin). now apply H. }
    now rewrite E.
Qed.
